(** * Fantasy roster engine: scoring, lineup validation, trade analysis

    A shallow embedding of [backend/services/scoring.py] and of the
    trade-analysis parts of [backend/app.py] ([trade_analyze] and
    [_generate_trade_suggestions]), followed by the properties of the
    engine.

    Conventions of the embedding:
    - Python [float] is IEEE binary64 and is modelled by Rocq's primitive
      floats, operation by operation and in the source's order of
      evaluation.  Python [int] is [Z].
    - [str] is [string]; [str.upper] is modelled on ASCII letters (names and
      positions are taken to be ASCII).
    - A [dict] whose iteration order the code observes is an association
      list kept in insertion order; the static tables are association lists
      too.
    - A player, a [dict] in the source, is a record; the key [is_starter]
      keeps the distinction between an absent key, [None] and a boolean,
      because [dict.get("is_starter", True)] tells them apart.  The name of
      a player is always a string, as the rows and saved rosters the route
      reads them from have it.
    - [sorted] and [list.sort] are modelled by a stable insertion sort on
      the key's [<], which is their result whenever [<] orders the keys. *)

From Stdlib Require Import Floats ZArith List String Ascii Bool Lia.
From Stdlib Require Import Permutation DecimalString.
Import ListNotations.

Set Warnings "-inexact-float".

Local Open Scope string_scope.
Local Open Scope float_scope.

(** ** Python runtime *)

Module Py.

(** [str.upper], on ASCII letters. *)
Definition upper_ascii (c : ascii) : ascii :=
  let n := nat_of_ascii c in
  if (97 <=? n)%nat && (n <=? 122)%nat then ascii_of_nat (n - 32) else c.

Fixpoint upper (s : string) : string :=
  match s with
  | EmptyString => EmptyString
  | String c s' => String (upper_ascii c) (upper s')
  end.

(** The value stored under a key of a [dict]: the key may be missing, may map
    to [None], or may map to a value of the expected type. *)
Inductive field (A : Type) : Type :=
| Absent
| Null
| Val (a : A).
Arguments Absent {A}.
Arguments Null {A}.
Arguments Val {A} a.

(** [d.get(k, True)] followed by a truth test, for a boolean entry. *)
Definition get_truthy_default_true (f : field bool) : bool :=
  match f with
  | Absent => true
  | Null => false
  | Val b => b
  end.

(** The truth test of a list, negated: [not l]. *)
Definition is_empty {A : Type} (l : list A) : bool :=
  match l with [] => true | _ => false end.

(** *** Ordered dictionaries *)

Section Dict.
Context {V : Type}.

Fixpoint dict_get (k : string) (d : list (string * V)) : option V :=
  match d with
  | [] => None
  | (k', v) :: d' => if String.eqb k' k then Some v else dict_get k d'
  end.

Definition dict_get_default (k : string) (dflt : V) (d : list (string * V)) : V :=
  match dict_get k d with
  | Some v => v
  | None => dflt
  end.

(** [d[k] = v]: an existing key keeps its place, a new key goes last. *)
Fixpoint dict_set (k : string) (v : V) (d : list (string * V)) : list (string * V) :=
  match d with
  | [] => [(k, v)]
  | (k', v') :: d' =>
      if String.eqb k' k then (k', v) :: d' else (k', v') :: dict_set k v d'
  end.

Definition dict_keys (d : list (string * V)) : list string := map fst d.
End Dict.

(** *** Floats: rounding and formatting to two decimals

    [round(x, 2)] and the format specifications [.2f] and [+.2f] both round
    the exact binary value of [x] to two decimals, ties to even. *)

(** [n / d] rounded to an integer, ties to even, for [0 <= n] and [0 < d]. *)
Definition div_half_even (n d : Z) : Z :=
  let q := (n / d)%Z in
  let r := (n mod d)%Z in
  match (2 * r ?= d)%Z with
  | Lt => q
  | Gt => (q + 1)%Z
  | Eq => if Z.even q then q else (q + 1)%Z
  end.

(** Hundredths of [m * 2^e], rounded ties to even. *)
Definition hundredths (m : positive) (e : Z) : Z :=
  match e with
  | Zneg p => div_half_even (Zpos m * 100) (2 ^ Zpos p)
  | _ => (Zpos m * 100 * 2 ^ e)%Z
  end.

(** [round(x, 2)]: the float nearest to the rounded decimal; infinities and
    NaN round to themselves, and the sign of a zero result is that of [x]. *)
Definition round2 (x : float) : float :=
  match Prim2SF x with
  | S754_finite s m e =>
      match hundredths m e with
      | Zpos n => SF2Prim (SFdiv prec emax (S754_finite s n 0) (S754_finite false 100 0))
      | _ => SF2Prim (S754_zero s)
      end
  | _ => x
  end.

Definition digits_of_Z (n : Z) : string :=
  NilZero.string_of_uint (N.to_uint (Z.to_N n)).

Definition two_digits (n : Z) : string :=
  if (n <? 10)%Z then "0" ++ digits_of_Z n else digits_of_Z n.

(** Digits of [format(abs(x), ".2f")] for a number of [h] hundredths. *)
Definition fixed2 (h : Z) : string :=
  digits_of_Z (h / 100) ++ "." ++ two_digits (h mod 100).

(** [format(x, ".2f")]. *)
Definition format_2f (x : float) : string :=
  match Prim2SF x with
  | S754_zero s => (if s then "-" else "") ++ "0.00"
  | S754_infinity s => (if s then "-" else "") ++ "inf"
  | S754_nan => "nan"
  | S754_finite s m e => (if s then "-" else "") ++ fixed2 (hundredths m e)
  end.

(** [format(x, "+.2f")]. *)
Definition format_plus_2f (x : float) : string :=
  match Prim2SF x with
  | S754_zero s => (if s then "-" else "+") ++ "0.00"
  | S754_infinity s => (if s then "-" else "+") ++ "inf"
  | S754_nan => "+nan"
  | S754_finite s m e => (if s then "-" else "+") ++ fixed2 (hundredths m e)
  end.

(** [str(n)] for an [int]. *)
Definition str_of_int (n : Z) : string :=
  match n with
  | Zneg p => "-" ++ digits_of_Z (Zpos p)
  | _ => digits_of_Z n
  end.

(** [sum(xs)] over floats: left to right from [0]. *)
Definition sum (xs : list float) : float := fold_left PrimFloat.add xs 0.

(** *** Sorting

    [sorted] and [list.sort] are stable and compare with [<] only.  The
    model inserts every element after the elements it is not less than,
    which is the result of any stable sort when [<] orders the keys
    (no NaN among them).  With [reverse=True] the list is reversed, sorted
    and reversed again, as CPython does. *)
Section Sort.
Context {A : Type} (lt : A -> A -> bool).

Fixpoint insert_sorted (x : A) (l : list A) : list A :=
  match l with
  | [] => [x]
  | y :: l' => if lt x y then x :: l else y :: insert_sorted x l'
  end.

Definition sorted (l : list A) : list A :=
  fold_left (fun acc x => insert_sorted x acc) l [].

Definition sorted_reverse (l : list A) : list A :=
  rev (sorted (rev l)).
End Sort.

(** *** More of [str] and [int] *)

(** [str.lower], on ASCII letters. *)
Definition lower_ascii (c : ascii) : ascii :=
  let n := nat_of_ascii c in
  if (65 <=? n)%nat && (n <=? 90)%nat then ascii_of_nat (n + 32) else c.

Fixpoint lower (s : string) : string :=
  match s with
  | EmptyString => EmptyString
  | String c s' => String (lower_ascii c) (lower s')
  end.

(** [str.isspace] on one ASCII character: tab to carriage return, the four
    separators [0x1c] to [0x1f], and the space. *)
Definition is_space (c : ascii) : bool :=
  let n := nat_of_ascii c in
  ((9 <=? n)%nat && (n <=? 13)%nat) || ((28 <=? n)%nat && (n <=? 32)%nat).

Fixpoint lstrip (s : string) : string :=
  match s with
  | EmptyString => EmptyString
  | String c s' => if is_space c then lstrip s' else s
  end.

(** [s.rstrip()]: a space is dropped when nothing but spaces follows it. *)
Fixpoint rstrip (s : string) : string :=
  match s with
  | EmptyString => EmptyString
  | String c s' =>
      match rstrip s' with
      | EmptyString => if is_space c then EmptyString else String c EmptyString
      | rest => String c rest
      end
  end.

(** [str.strip()]. *)
Definition strip (s : string) : string := rstrip (lstrip s).

(** [s.find(q) != -1]: [q] occurs in [s]. *)
Fixpoint occurs_in (q s : string) : bool :=
  String.prefix q s
  || match s with
     | EmptyString => false
     | String _ s' => occurs_in q s'
     end.

(** [float(n)] for an [int]: the nearest float. *)
Definition float_of_int (n : Z) : float :=
  SF2Prim (binary_normalize prec emax n 0 false).

(** [max(a, b)] on floats: [b] when [b > a], otherwise [a]. *)
Definition max_float (a b : float) : float := if PrimFloat.ltb a b then b else a.

End Py.

Import Py.

(** ** Player records *)

(** A player as the engine receives it.  [position] and [projection] are
    [None] when the key is missing or maps to [None]: the code reads both
    through [get(...) or default], which does not tell the two apart. *)
Record Player : Type := mkPlayer {
  name : string;
  position : option string;
  team : option string;
  projection : option float;
  is_starter : field bool
}.

(** ** services/scoring.py *)

Record Preset : Type := mkPreset { reception_bonus : float }.

Definition POSITION_WEIGHTS : list (string * float) :=
  [ ("QB", 1.00); ("RB", 1.08); ("WR", 1.08); ("TE", 1.00);
    ("FLEX", 1.00); ("K", 0.45); ("DEF", 0.65); ("D/ST", 0.65) ].

Definition POSITION_LIMITS : list (string * Z) :=
  [ ("QB", 1); ("RB", 2); ("WR", 2); ("TE", 1);
    ("FLEX", 1); ("K", 1); ("DEF", 1); ("D/ST", 1) ]%Z.

Definition SCORING_PRESETS : list (string * Preset) :=
  [ ("Standard", mkPreset 0.0); ("Half-PPR", mkPreset 0.5); ("PPR", mkPreset 1.0) ].

(** [(player.get("position") or "UNK").upper()]: a missing, [None] or empty
    position reads as ["UNK"]. *)
Definition position_of (player : Player) : string :=
  upper (match position player with
         | Some s => if String.eqb s "" then "UNK" else s
         | None => "UNK"
         end).

(** [float(player.get("projection", 0) or 0)]: a missing, [None] or zero
    projection (of either sign) reads as [0.0]; NaN is kept. *)
Definition projection_of (player : Player) : float :=
  match projection player with
  | Some x => if PrimFloat.eqb x 0 then 0 else x
  | None => 0
  end.

(** The table holds the integer [0] for some positions and the lookup
    defaults to the integer [0]; the product with the float bonus converts
    it to [0.0]. *)
Definition get_avg_receptions_by_position (position : string) : float :=
  let reception_estimates :=
    [ ("QB", 0); ("RB", 3.5); ("WR", 6.0); ("TE", 4.5);
      ("FLEX", 5.0); ("K", 0); ("DEF", 0); ("D/ST", 0) ] in
  dict_get_default position 0 reception_estimates.

Definition calculate_player_score (player : Player) (scoring_type : string) : float :=
  let projection := projection_of player in
  let position := position_of player in
  let weight := dict_get_default position 1.0 POSITION_WEIGHTS in
  let base_score := projection * weight in
  let preset :=
    dict_get_default scoring_type
      (dict_get_default "PPR" (mkPreset 1.0) SCORING_PRESETS) SCORING_PRESETS in
  let reception_bonus := reception_bonus preset in
  let avg_receptions := get_avg_receptions_by_position position in
  let bonus_score := avg_receptions * reception_bonus in
  base_score + bonus_score.

(** One turn of the loop of [team_strength_v3] on the two running totals. *)
Definition strength_step (scoring_type : string) (acc : float * float)
    (player : Player) : float * float :=
  let '(starter_total, bench_total) := acc in
  let score := calculate_player_score player scoring_type in
  if get_truthy_default_true (is_starter player)
  then (starter_total + score, bench_total)
  else (starter_total, bench_total + score).

Definition team_strength_v3 (players : list Player) (scoring_type : string)
    : float * float :=
  fold_left (strength_step scoring_type) players (0.0, 0.0).

Module Violation.
Record t : Type := mk {
  position : string;
  current : Z;
  limit : Z;
  excess : Z
}.
End Violation.

Record Validation : Type := mkValidation {
  valid : bool;
  violations : list Violation.t;
  starter_counts : list (string * Z);
  position_limits : list (string * Z)
}.

(** First loop of [validate_lineup]: count the starters by position. *)
Definition count_step (counts : list (string * Z)) (player : Player)
    : list (string * Z) :=
  if get_truthy_default_true (is_starter player)
  then let position := position_of player in
       dict_set position (dict_get_default position 0 counts + 1)%Z counts
  else counts.

Definition count_starters (players : list Player) : list (string * Z) :=
  fold_left count_step players [].

(** Second loop of [validate_lineup]: one pass over the counted positions. *)
Definition check_limits (counts : list (string * Z)) : list Violation.t :=
  flat_map
    (fun '(position, count) =>
       let limit := dict_get_default position 1%Z POSITION_LIMITS in
       if (limit <? count)%Z
       then [Violation.mk position count limit (count - limit)]
       else [])
    counts.

Definition validate_lineup (players : list Player) : Validation :=
  let starter_counts := count_starters players in
  let violations := check_limits starter_counts in
  mkValidation (Nat.eqb (List.length violations) 0) violations starter_counts
    POSITION_LIMITS.

Definition can_add_starter (players : list Player) (new_position : string) : bool :=
  let validation := validate_lineup players in
  let current_count :=
    dict_get_default (upper new_position) 0%Z (starter_counts validation) in
  let limit := dict_get_default (upper new_position) 1%Z POSITION_LIMITS in
  (current_count <? limit)%Z.

(** The inner dictionary [{"starter": s, "bench": b}] of a breakdown. *)
Record Split : Type := mkSplit { starter : float; bench : float }.

Definition breakdown_step (scoring_type : string) (breakdown : list (string * Split))
    (player : Player) : list (string * Split) :=
  let position := position_of player in
  let score := calculate_player_score player scoring_type in
  let entry := dict_get_default position (mkSplit 0.0 0.0) breakdown in
  if get_truthy_default_true (is_starter player)
  then dict_set position (mkSplit (starter entry + score) (bench entry)) breakdown
  else dict_set position (mkSplit (starter entry) (bench entry + score)) breakdown.

Definition position_breakdown_v3 (players : list Player) (scoring_type : string)
    : list (string * Split) :=
  fold_left (breakdown_step scoring_type) players [].

(** Legacy entry points. *)
Definition team_strength (players : list Player) (scoring : string) : float :=
  let '(starter_total, _) := team_strength_v3 players scoring in
  starter_total.

Definition position_breakdown (players : list Player) : list (string * float) :=
  let breakdown_v3 := position_breakdown_v3 players "PPR" in
  fold_left
    (fun combined '(position, scores) =>
       dict_set position (starter scores + bench scores) combined)
    breakdown_v3 [].

(** ** app.py: the suggestion generator *)

Module Entry.
(** An element of the per-position index built by [by_position]. *)
Record t : Type := mk {
  name : string;
  is_starter : bool;
  score : float
}.
End Entry.

Record Suggestions : Type := mkSuggestions {
  starter_optimization : list string;
  positional_improvement : list string;
  depth_and_bench : list string;
  positional_need_warnings : list string;
  unfavorable_trade_recos : list string;
  neutral_trade_suggestions : list string;
  final_summary : list string
}.

Definition score_lt (x y : Entry.t) : bool :=
  PrimFloat.ltb (Entry.score x) (Entry.score y).

(** [pos_map.setdefault(pos, []).append({...})] for one player. *)
Definition index_step (scoring_type : string) (pos_map : list (string * list Entry.t))
    (p : Player) : list (string * list Entry.t) :=
  let pos := position_of p in
  dict_set pos
    (dict_get_default pos [] pos_map
       ++ [Entry.mk (name p) (get_truthy_default_true (is_starter p))
                    (calculate_player_score p scoring_type)])%list
    pos_map.

Definition by_position (scoring_type : string) (players : list Player)
    : list (string * list Entry.t) :=
  map (fun '(pos, lst) => (pos, sorted_reverse score_lt lst))
      (fold_left (index_step scoring_type) players []).

(** 1) Starter optimization. *)
Definition starter_optimization_of (after_pos : list (string * list Entry.t))
    : list string :=
  flat_map
    (fun '(pos, players) =>
       let limit := dict_get_default pos 1%Z POSITION_LIMITS in
       let starters := firstn (Z.to_nat limit) (filter Entry.is_starter players) in
       let bench := filter (fun p => negb (Entry.is_starter p)) players in
       if negb (is_empty starters) && negb (is_empty bench)
       then
         let starters_sorted := sorted score_lt starters in
         let bench_sorted := sorted_reverse score_lt bench in
         match starters_sorted, bench_sorted with
         | weakest :: _, best :: _ =>
             if PrimFloat.ltb (Entry.score weakest) (Entry.score best)
             then let diff := Entry.score best - Entry.score weakest in
                  ["Promote " ++ Entry.name best ++ " to " ++ pos ++ " starter (+"
                     ++ format_2f diff ++ " vs current weakest " ++ pos ++ ")."]
             else []
         | _, _ => []
         end
       else [])
    after_pos.

(** [sorted(set(before_bd.keys()) | set(after_bd.keys()))]. *)
Definition sorted_key_union {V : Type} (before_bd after_bd : list (string * V))
    : list string :=
  sorted String.ltb (nodup string_dec (dict_keys before_bd ++ dict_keys after_bd)).

(** 2) Positional improvement. *)
Definition positional_improvement_of (before_bd after_bd : list (string * Split))
    : list string :=
  flat_map
    (fun pos =>
       let b := dict_get_default pos (mkSplit 0.0 0.0) before_bd in
       let a := dict_get_default pos (mkSplit 0.0 0.0) after_bd in
       let d_starter := round2 (starter a - starter b) in
       let d_bench := round2 (bench a - bench b) in
       app
         (if PrimFloat.ltb 0 d_starter
          then [pos ++ ": starter strength improved by +" ++ format_2f d_starter ++ "."]
          else if PrimFloat.ltb d_starter 0
          then [pos ++ ": starter strength decreased by " ++ format_2f d_starter ++ "."]
          else [])
         (if negb (PrimFloat.eqb d_bench 0)
          then let sign := if PrimFloat.ltb 0 d_bench then "+" else "" in
               [pos ++ ": bench depth change " ++ sign ++ format_2f d_bench ++ "."]
          else []))
    (sorted_key_union before_bd after_bd).

(** 3) Depth and bench strategy. *)
Definition depth_and_bench_of (after_bd : list (string * Split)) : list string :=
  flat_map
    (fun '(pos, bd) =>
       let bench_score := bench bd in
       let starter_score := starter bd in
       app
         (if PrimFloat.ltb 0 starter_score
             && PrimFloat.ltb bench_score (0.30 * starter_score)
          then ["Depth is thin at " ++ pos
                  ++ ". Consider waiver or 2-for-1 trade to add " ++ pos ++ " bench."]
          else [])
         (if PrimFloat.ltb starter_score bench_score
          then ["Bench surplus at " ++ pos
                  ++ ". Package bench assets to upgrade another need."]
          else []))
    after_bd.

(** 4) Positional need warnings. *)
Definition positional_need_warnings_of (after_players : list Player) : list string :=
  let validation := validate_lineup after_players in
  app
    (map (fun v =>
            "Too many " ++ Violation.position v ++ " starters ("
              ++ str_of_int (Violation.current v) ++ "/"
              ++ str_of_int (Violation.limit v) ++ "). Move excess to bench.")
         (violations validation))
    (flat_map
       (fun '(pos, limit) =>
          let count := dict_get_default pos 0%Z (starter_counts validation) in
          if (0 <? limit)%Z && (count =? 0)%Z
          then ["No " ++ pos ++ " starter set. Ensure at least " ++ str_of_int limit
                  ++ " " ++ pos ++ " in lineup."]
          else [])
       POSITION_LIMITS).

(** The list [drops] of 5): the positions of the after breakdown whose
    rounded starter delta is negative, in the order of the breakdown.  The
    loop runs over [after_bd.keys()] and reads [after_bd[pos]], the value of
    the item; a position missing from [before_bd] starts from [0.0]. *)
Definition starter_drops (before_bd after_bd : list (string * Split))
    : list (string * float) :=
  flat_map
    (fun '(pos, after_scores) =>
       let d_st :=
         round2 (starter after_scores
                 - starter (dict_get_default pos (mkSplit 0.0 0.0) before_bd)) in
       if PrimFloat.ltb d_st 0 then [(pos, d_st)] else [])
    after_bd.

Definition snd_lt (x y : string * float) : bool := PrimFloat.ltb (snd x) (snd y).

Definition recover_message (drop : string * float) : string :=
  let '(pos, d) := drop in
  "Recover " ++ pos ++ ": target a mid-tier upgrade (aim +" ++ format_2f (- d) ++ ").".

Definition counter_offer_message : string :=
  "Consider counter-offering: swap a bench piece for a starter upgrade, or include a pick.".

(** 5) Unfavorable trade recommendations. *)
Definition unfavorable_trade_recos_of (delta_total : float)
    (before_bd after_bd : list (string * Split)) : list string :=
  if PrimFloat.ltb delta_total 0
  then app
         (map recover_message
              (firstn 3 (sorted snd_lt (starter_drops before_bd after_bd))))
         [counter_offer_message]
  else [].

Definition bench_gains (before_bd after_bd : list (string * Split))
    : list (string * float) :=
  flat_map
    (fun '(pos, after_scores) =>
       let d_b :=
         round2 (bench after_scores
                 - bench (dict_get_default pos (mkSplit 0.0 0.0) before_bd)) in
       if PrimFloat.ltb 0 d_b then [(pos, d_b)] else [])
    after_bd.

(** 6) Neutral trade suggestions. *)
Definition neutral_trade_suggestions_of (delta_total : float)
    (before_bd after_bd : list (string * Split)) : list string :=
  if PrimFloat.eqb delta_total 0
  then "Seek marginal gains: prioritize positions with small positive bench deltas to convert into starters."
       :: match sorted_reverse snd_lt (bench_gains before_bd after_bd) with
          | (pos, d) :: _ =>
              ["Best bench gain is at " ++ pos ++ " (+" ++ format_2f d
                 ++ "). Explore promoting bench to starters."]
          | [] => []
          end
  else [].

(** The sign rule shared by the summary and by [trade_analyze]. *)
Definition decision_of (delta : float) : string :=
  if PrimFloat.ltb 0 delta then "Accept"
  else if PrimFloat.eqb delta 0 then "Neutral"
  else "Reject".

(** 7) Final summary. *)
Definition final_summary_of (delta_total before_starter after_starter : float)
    : list string :=
  let decision := decision_of delta_total in
  ["Decision: " ++ decision ++ " — starter Δ " ++ format_plus_2f delta_total
     ++ " (before " ++ format_2f before_starter ++ " → after "
     ++ format_2f after_starter ++ ")."].

Definition _generate_trade_suggestions (before_players after_players : list Player)
    (scoring_type : string) : Suggestions :=
  let '(before_starter, before_bench) := team_strength_v3 before_players scoring_type in
  let '(after_starter, after_bench) := team_strength_v3 after_players scoring_type in
  let before_bd := position_breakdown_v3 before_players scoring_type in
  let after_bd := position_breakdown_v3 after_players scoring_type in
  let delta_total := round2 (after_starter - before_starter) in
  let after_pos := by_position scoring_type after_players in
  mkSuggestions
    (starter_optimization_of after_pos)
    (positional_improvement_of before_bd after_bd)
    (depth_and_bench_of after_bd)
    (positional_need_warnings_of after_players)
    (unfavorable_trade_recos_of delta_total before_bd after_bd)
    (neutral_trade_suggestions_of delta_total before_bd after_bd)
    (final_summary_of delta_total before_starter after_starter).

(** ** app.py: the trade simulator

    The model of [trade_analyze] starts where the route has resolved its
    collaborators: [my_input] is the caller's roster and [other_input] the
    players of the selected saved roster (named [other_name]), both with their
    effective projections; [give_names] and [receive_names] are the two
    comma-separated form fields, split, stripped and without empty items.
    The guards on the selection of the other roster, which come before the
    name checks and end the request when no saved roster is found, are
    outside the model, and so is the closing [flash] of the summary line of a
    completed analysis. *)

Record TradeReport : Type := mkTradeReport {
  other_roster : string;
  give : list string;
  receive : list string;
  before_strength : float;
  after_strength : float;
  delta : float;
  rationale : string
}.

(** What a completed analysis leaves behind: the stored report, the post
    roster handed to the suggestion generator, and the suggestions. *)
Record Analysis : Type := mkAnalysis {
  report : TradeReport;
  my_post : list Player;
  suggestions : Suggestions
}.

(** [Flash category message endpoint] is [flash(message, category)] followed
    by [return redirect_back(endpoint)], before anything is stored. *)
Inductive Outcome : Type :=
| Flash (category message endpoint : string)
| Analyzed (analysis : Analysis).

Definition remove_by_names (items : list Player) (names : list string) : list Player :=
  let names_upper := map upper names in
  filter (fun i => negb (existsb (String.eqb (upper (name i))) names_upper)) items.

Definition pick_from_pool (pool : list Player) (names : list string) : list Player :=
  flat_map
    (fun n =>
       match find (fun i => String.eqb (upper (name i)) (upper n)) pool with
       | Some found => [found]
       | None => []
       end)
    names.

(** [[n for n in names if n.upper() not in {p['name'].upper() for p in players}]]. *)
Definition missing_names (names : list string) (players : list Player) : list string :=
  let names_upper := map (fun p => upper (name p)) players in
  filter (fun n => negb (existsb (String.eqb (upper n)) names_upper)) names.

Definition trade_analyze (other_name : string) (my_input other_input : list Player)
    (give_names receive_names : list string) (scoring_type : string) : Outcome :=
  if is_empty my_input
  then Flash "warning"
         "Your roster is empty. Add players on the Dashboard before analyzing trades."
         "dashboard"
  else if is_empty give_names && is_empty receive_names
  then Flash "warning"
         "Enter player names to Give or Receive (comma-separated) to simulate a trade."
         "trade_page"
  else
    let '(base_starters, base_bench) := team_strength_v3 my_input scoring_type in
    let base_total := base_starters in
    let missing_give := missing_names give_names my_input in
    let missing_receive := missing_names receive_names other_input in
    if negb (is_empty missing_give)
    then Flash "error"
           ("These 'Give' players were not found in your roster: "
              ++ String.concat ", " missing_give ++ ".")
           "trade_page"
    else if negb (is_empty missing_receive)
    then Flash "error"
           ("These 'Receive' players were not found in the selected roster: "
              ++ String.concat ", " missing_receive ++ ".")
           "trade_page"
    else
      let my_post :=
        (remove_by_names my_input give_names
           ++ pick_from_pool other_input receive_names)%list in
      let '(post_starters, post_bench) := team_strength_v3 my_post scoring_type in
      let post_total := post_starters in
      let delta := round2 (post_total - base_total) in
      let rationale := decision_of delta in
      let detailed :=
        "Before: " ++ format_2f base_total ++ ", After: " ++ format_2f post_total
          ++ ", Δ: " ++ format_2f delta ++ " — " ++ rationale in
      Analyzed
        (mkAnalysis
           (mkTradeReport other_name give_names receive_names
              base_total post_total delta detailed)
           my_post
           (_generate_trade_suggestions my_input my_post scoring_type)).

(** ** app.py: the roster routes

    The rows of the [players] table that belong to the logged-in user, in
    the order the queries return them; [next_id] is the value the next
    inserted row gets as its primary key.  The routes run
    [can_add_starter] on the rows turned into dictionaries.  The catalog
    upsert of [add_from_search] touches another table and is outside the
    model.  A route answers with a redirect after flashing (category,
    message) pairs, or its commit raises and the table is left as it was. *)

Record Row : Type := mkRow {
  row_id : Z;
  row_name : string;
  row_position : string;
  row_team : string;
  row_player_id : option string;
  row_projection : float;
  row_is_starter : bool
}.

Record Roster : Type := mkRoster {
  next_id : Z;
  rows : list Row
}.

(** [dict(name=p.name, position=p.position, team=p.team,
    projection=p.projection, is_starter=p.is_starter)]. *)
Definition row_dict (p : Row) : Player :=
  mkPlayer (row_name p) (Some (row_position p)) (Some (row_team p))
    (Some (row_projection p)) (Val (row_is_starter p)).

Inductive Response : Type :=
| Flashed (messages : list (string * string))
| IntegrityError.

(** The table with one more row. *)
Definition with_row (db : Roster) (name position team : string)
    (player_id : option string) (projection : float) (is_starter : bool) : Roster :=
  mkRoster (next_id db + 1)%Z
    (rows db
       ++ [mkRow (next_id db) name position team player_id projection is_starter])%list.

(** [s.add(Player(...)); s.commit()].  The column [projection] of
    models.py is [Mapped[float]], hence NOT NULL, and SQLite stores a NaN
    as NULL: the commit of a NaN projection raises [IntegrityError] and
    stores nothing. *)
Definition insert_row (db : Roster) (name position team : string)
    (player_id : option string) (projection : float) (is_starter : bool)
    : option Roster :=
  if PrimFloat.is_nan projection then None
  else Some (with_row db name position team player_id projection is_starter).

(** [player.is_starter = not player.is_starter] on the row the query found:
    the first row with that id. *)
Fixpoint flip_starter (player_id : Z) (l : list Row) : list Row :=
  match l with
  | [] => []
  | p :: l' =>
      if (row_id p =? player_id)%Z
      then mkRow (row_id p) (row_name p) (row_position p) (row_team p)
             (row_player_id p) (row_projection p) (negb (row_is_starter p)) :: l'
      else p :: flip_starter player_id l'
  end.

(** [add_player]: the four form fields as submitted (or their defaults), and
    [projection], the float the [try] block ends with ([float] reads "nan"
    as NaN and "inf" as an infinity).  The result is the table after the
    request and the answer; the messages flashed before a commit that
    raises are not part of it. *)
Definition add_player (db : Roster) (name_field position_field team_field
    is_starter_field : string) (projection : float)
    : Roster * Response :=
  let name := strip name_field in
  let position := upper (strip position_field) in
  let team := upper (strip team_field) in
  let is_starter := String.eqb (lower is_starter_field) "true" in
  if negb (String.eqb name "") && negb (String.eqb position "")
  then
    let current_player_dicts := map row_dict (rows db) in
    let refused := is_starter && negb (can_add_starter current_player_dicts position) in
    let limit := dict_get_default position 1%Z POSITION_LIMITS in
    let warning :=
      if refused
      then [("warning",
             "Cannot add " ++ name ++ " as starter - " ++ position
               ++ " position limit (" ++ str_of_int limit
               ++ ") reached. Added to bench instead.")]
      else [] in
    let is_starter := if refused then false else is_starter in
    let status := if is_starter then "starter" else "bench" in
    match insert_row db name position team None projection is_starter with
    | Some db' =>
        (db',
         Flashed
           (app warning
              [("success", "Added " ++ name ++ " to your roster as " ++ status ++ "!")]))
    | None => (db, IntegrityError)
    end
  else (db, Flashed [("error", "Name and position are required.")]).

(** [add_from_search]: [position_field] and [team_field] are [None] when the
    form lacks them; [target] is the field or its default ["starter"]. *)
Definition add_from_search (db : Roster) (player_id : option string)
    (full_name : string) (position_field team_field : option string)
    (target : string) : Roster * Response :=
  let position := upper (match position_field with Some s => s | None => "" end) in
  let team := upper (match team_field with Some s => s | None => "" end) in
  let is_starter := String.eqb target "starter" in
  let current_player_dicts := map row_dict (rows db) in
  if is_starter && negb (can_add_starter current_player_dicts position)
  then
    let limit := dict_get_default position 1%Z POSITION_LIMITS in
    (db, Flashed
           [("warning",
             "Cannot add " ++ full_name ++ " as starter - " ++ position
               ++ " position limit (" ++ str_of_int limit
               ++ ") reached. Try adding as Bench.")])
  else
    match insert_row db full_name position team player_id 0.0 is_starter with
    | Some db' =>
        (db',
         Flashed
           [("success",
             "Added " ++ full_name ++ " from live search to your roster as "
               ++ (if is_starter then "starter" else "bench") ++ ".")])
    | None => (db, IntegrityError)
    end.

Definition toggle_player_status (db : Roster) (player_id : Z)
    : Roster * Response :=
  match find (fun p => (row_id p =? player_id)%Z) (rows db) with
  | None => (db, Flashed [("error", "Player not found.")])
  | Some player =>
      let current_player_dicts := map row_dict (rows db) in
      if negb (row_is_starter player)
         && negb (can_add_starter current_player_dicts (row_position player))
      then
        let limit := dict_get_default (row_position player) 1%Z POSITION_LIMITS in
        (db, Flashed
               [("warning",
                 "Cannot move " ++ row_name player ++ " to starter - "
                   ++ row_position player ++ " position limit (" ++ str_of_int limit
                   ++ ") reached.")])
      else
        let status := if negb (row_is_starter player) then "starter" else "bench" in
        (mkRoster (next_id db) (flip_starter player_id (rows db)),
         Flashed [("success", "Moved " ++ row_name player ++ " to " ++ status ++ ".")])
  end.

Definition clear_players (db : Roster) : Roster * Response :=
  (mkRoster (next_id db) [],
   Flashed [("info", "All players cleared from your roster.")]).

(** ** services/stats_api.py: the mock projection

    [hash] is Python's string hash, which is salted per process: the
    functions take it as a parameter.  A name is always a string here. *)

Definition POSITION_BASELINES : list (string * float) :=
  [ ("QB", 20.0); ("RB", 15.0); ("WR", 14.0); ("TE", 9.0);
    ("FLEX", 12.0); ("K", 8.0); ("DEF", 7.0); ("D/ST", 7.0) ].

Definition TEAM_ADJUSTMENTS : list (string * float) :=
  [ ("KC", 1.0); ("SF", 0.8); ("DAL", 0.5); ("BUF", 0.6); ("PHI", 0.6);
    ("BAL", 0.5) ].

Definition _stable_variation (hash : string -> Z) (name : string) : float :=
  if String.eqb name "" then 0.0
  else
    let h := (Z.abs (hash name) mod 1000)%Z in
    (float_of_int h / 999.0) * 2.0 - 1.0.

Definition project_player (hash : string -> Z) (name : string)
    (position team : option string) (scoring_type : string) : float :=
  let pos :=
    upper (match position with
           | Some s => if String.eqb s "" then "UNK" else s
           | None => "UNK"
           end) in
  let base := dict_get_default pos 10.0 POSITION_BASELINES in
  let team_adj :=
    dict_get_default (upper (match team with Some s => s | None => "" end)) 0.0
      TEAM_ADJUSTMENTS in
  let name_adj := _stable_variation hash name * 1.2 in
  let preset :=
    dict_get_default scoring_type
      (dict_get_default "PPR" (mkPreset 1.0) SCORING_PRESETS) SCORING_PRESETS in
  let reception_bonus := reception_bonus preset in
  let bonus := get_avg_receptions_by_position pos * reception_bonus * 0.15 in
  let projection := base + team_adj + name_adj + bonus in
  max_float 0.0 (round2 projection).

(** ** services/stats_api.py: the player search *)

(** [o or ""] for an optional string. *)
Definition or_empty (o : option string) : string :=
  match o with
  | Some s => s
  | None => ""
  end.

Module Info.
(** An entry of the players catalog; a field is [None] when the key is
    missing or maps to [None]. *)
Record t : Type := mk {
  full_name : option string;
  first_name : option string;
  last_name : option string;
  position : option string;
  team : option string
}.
End Info.

Module Found.
(** A search result, without its [updated_at] time stamp. *)
Record t : Type := mk {
  player_id : string;
  full_name : string;
  position : string;
  team : string;
  season : Z;
  week : option Z;
  projection_points : float;
  source : string
}.
End Found.

(** [(info.get("full_name") or info.get("first_name") or "")
     + (" " + (info.get("last_name") or "") if info.get("last_name") else "")]. *)
Definition built_name (info : Info.t) : string :=
  (if negb (String.eqb (or_empty (Info.full_name info)) "")
   then or_empty (Info.full_name info)
   else or_empty (Info.first_name info))
  ++ (if negb (String.eqb (or_empty (Info.last_name info)) "")
      then " " ++ or_empty (Info.last_name info)
      else "").

(** The three [continue] tests of the loop, negated: the entry is kept. *)
Definition entry_matches (q t p : string) (info : Info.t) : bool :=
  let full_name := built_name info in
  let pos := upper (or_empty (Info.position info)) in
  let team_code := upper (or_empty (Info.team info)) in
  negb (negb (String.eqb q "") && negb (occurs_in q (lower full_name)))
  && negb (negb (String.eqb t "") && negb (String.eqb team_code t))
  && negb (negb (String.eqb p "") && negb (String.eqb pos p)).

Definition found_entry (hash : string -> Z) (season : Z) (week : option Z)
    (scoring_type : string) (item : string * Info.t) : Found.t :=
  let '(pid, info) := item in
  let full_name := built_name info in
  let pos := upper (or_empty (Info.position info)) in
  let team_code := upper (or_empty (Info.team info)) in
  let proj := project_player hash full_name (Some pos) (Some team_code) scoring_type in
  Found.mk pid
    (if negb (String.eqb (strip full_name) "") then strip full_name
     else if negb (String.eqb (or_empty (Info.full_name info)) "")
     then or_empty (Info.full_name info)
     else "Unknown")
    pos team_code season week proj "live".

(** The loop over [catalog.items()], with its [break] once [limit] results
    are there. *)
Fixpoint search_loop (hash : string -> Z) (q t p : string) (season : Z)
    (week : option Z) (scoring_type : string) (limit : Z)
    (items : list (string * Info.t)) (results : list Found.t) : list Found.t :=
  match items with
  | [] => results
  | item :: rest =>
      if entry_matches q t p (snd item)
      then
        let results' := (results ++ [found_entry hash season week scoring_type item])%list in
        if (limit <=? Z.of_nat (List.length results'))%Z
        then results'
        else search_loop hash q t p season week scoring_type limit rest results'
      else search_loop hash q t p season week scoring_type limit rest results
  end.

(** [search_players], on the catalog it was given or has fetched. *)
Definition search_players (hash : string -> Z) (query team position : option string)
    (season : Z) (week : option Z) (scoring_type : string) (limit : Z)
    (catalog : list (string * Info.t)) : list Found.t :=
  let q := lower (strip (or_empty query)) in
  let t := upper (strip (or_empty team)) in
  let p := upper (strip (or_empty position)) in
  if is_empty catalog then []
  else search_loop hash q t p season week scoring_type limit catalog [].

(** ** app.py: the strength history *)

Module WeekStrength.
(** An item of the history: [{"week", "starter_total", "bench_total"}]. *)
Record t : Type := mk {
  week : Z;
  starter_total : float;
  bench_total : float
}.
End WeekStrength.

(** [strength_history_for_weeks].  [live_projection w p] stands for the two
    catalog queries for row [p] in week [w] of the season: the projection
    points of the row they find, if any.  [scoring_setting] is the scoring
    type stored for the user, if any. *)
Definition strength_history_for_weeks (live_projection : Z -> Row -> option float)
    (roster : list Row) (scoring_setting : option string) (upto_week : Z)
    : list WeekStrength.t :=
  let scoring_type_local :=
    match scoring_setting with
    | Some s => if String.eqb s "" then "PPR" else s
    | None => "PPR"
    end in
  map
    (fun w =>
       let scoring_input :=
         map
           (fun p =>
              let proj :=
                match live_projection w p with
                | Some points => points
                | None =>
                    if PrimFloat.eqb (row_projection p) 0 then 0.0 else row_projection p
                end in
              mkPlayer (row_name p) (Some (row_position p)) (Some (row_team p))
                (Some proj) (Val (row_is_starter p)))
           roster in
       let '(starters, bench) := team_strength_v3 scoring_input scoring_type_local in
       WeekStrength.mk w starters bench)
    (map (fun k => Z.of_nat k) (seq 1 (Z.to_nat (Z.max 1 upto_week)))).

(** ** Vocabulary of the properties *)

(** The truth value the engine reads from [is_starter]. *)
Definition counts_as_starter (p : Player) : bool :=
  get_truthy_default_true (is_starter p).

(** The same player with a missing [is_starter] written out as [True]. *)
Definition explicit_starter (p : Player) : Player :=
  match is_starter p with
  | Absent => mkPlayer (name p) (position p) (team p) (projection p) (Val true)
  | _ => p
  end.

(** An item of the legacy breakdown, from an item of [position_breakdown_v3]. *)
Definition combine_split (item : string * Split) : string * float :=
  let '(pos, scores) := item in (pos, starter scores + bench scores).

(** Number of starters of a list at a normalized position. *)
Definition starters_at (players : list Player) (pos : string) : Z :=
  Z.of_nat
    (List.length
       (filter (fun p => counts_as_starter p && String.eqb (position_of p) pos) players)).

(** The record as the specification reads it: the position upper-cased, and
    ["UNK"] when it is missing or empty; the projection, [0] when it is
    missing; a starter when [is_starter] is true or missing. *)
Definition normalized_position (p : Player) : string :=
  match position p with
  | Some (String c s) => upper (String c s)
  | _ => "UNK"
  end.

Definition stated_projection (p : Player) : float :=
  match projection p with
  | Some x => x
  | None => 0
  end.

Definition stated_starter (p : Player) : bool :=
  match is_starter p with
  | Absent => true
  | Null => false
  | Val b => b
  end.

(** The players of a list at a position, in their order. *)
Definition at_position (pos : string) (players : list Player) : list Player :=
  filter (fun p => String.eqb (normalized_position p) pos) players.

(** The number of starters among them. *)
Definition stated_starters_at (players : list Player) (pos : string) : Z :=
  Z.of_nat (List.length (filter stated_starter (at_position pos players))).

(** The float sum of a list, from [0.0], left to right. *)
Definition float_sum (l : list float) : float := fold_left PrimFloat.add l 0.0.

(** The starter limit of a position, 1 outside the table. *)
Definition limit_of (pos : string) : Z := dict_get_default pos 1%Z POSITION_LIMITS.

(** The weight of a position, 1.0 outside the table. *)
Definition position_weight (pos : string) : float :=
  dict_get_default pos 1.0 POSITION_WEIGHTS.

(** The reception bonus of a preset key, PPR when the key is unknown. *)
Definition preset_reception_bonus (scoring_type : string) : float :=
  match dict_get scoring_type SCORING_PRESETS with
  | Some preset => reception_bonus preset
  | None => 1.0
  end.

(** The analysis that [trade_analyze] completes when validation passes. *)
Definition completed_analysis (other_name : string) (my_input other_input : list Player)
    (give_names receive_names : list string) (scoring_type : string) : Analysis :=
  let post :=
    (remove_by_names my_input give_names
       ++ pick_from_pool other_input receive_names)%list in
  let base_total := fst (team_strength_v3 my_input scoring_type) in
  let post_total := fst (team_strength_v3 post scoring_type) in
  let delta := round2 (post_total - base_total) in
  mkAnalysis
    (mkTradeReport other_name give_names receive_names base_total post_total delta
       ("Before: " ++ format_2f base_total ++ ", After: " ++ format_2f post_total
          ++ ", Δ: " ++ format_2f delta ++ " — " ++ decision_of delta))
    post
    (_generate_trade_suggestions my_input post scoring_type).

(** A roster and a counterparty pool for the worked scenarios. *)
Definition scenario_roster : list Player :=
  [ mkPlayer "Al" (Some "QB") None (Some 20) (Val true);
    mkPlayer "Bo" (Some "WR") None (Some 10) (Val true);
    mkPlayer "Cy" (Some "RB") None (Some 12) (Val false) ].

Definition scenario_pool : list Player :=
  [ mkPlayer "Ed" (Some "WR") None (Some 15) (Val true);
    mkPlayer "ED" (Some "K") None (Some 9) (Val true);
    mkPlayer "Fy" (Some "TE") None (Some 8) (Val false) ].

(** The messages of the validation failures. *)
Definition empty_roster_message : string :=
  "Your roster is empty. Add players on the Dashboard before analyzing trades.".

Definition enter_names_message : string :=
  "Enter player names to Give or Receive (comma-separated) to simulate a trade.".

Definition give_not_found_message (missing : list string) : string :=
  "These 'Give' players were not found in your roster: "
    ++ String.concat ", " missing ++ ".".

Definition receive_not_found_message (missing : list string) : string :=
  "These 'Receive' players were not found in the selected roster: "
    ++ String.concat ", " missing ++ ".".

(** A name that no player of the list bears, letter case apart. *)
Definition absent_from (players : list Player) (n : string) : Prop :=
  forall p, In p players -> upper (name p) <> upper n.

(** [p] is the first entry of [pool] whose name is [n], letter case apart. *)
Definition first_match (pool : list Player) (n : string) (p : Player) : Prop :=
  exists before after,
    pool = (before ++ p :: after)%list
    /\ upper (name p) = upper n
    /\ absent_from before n.

(** The input validation of a trade: a roster to trade from, at least one
    name, every give name borne by a player of the roster and every receive
    name by a player of the pool. *)
Definition passes_validation (my_input other_input : list Player)
    (give_names receive_names : list string) : Prop :=
  my_input <> []
  /\ ~ (give_names = [] /\ receive_names = [])
  /\ (forall n, In n give_names -> ~ absent_from my_input n)
  /\ (forall n, In n receive_names -> ~ absent_from other_input n).

(** The lineup of the stored rows passes [validate_lineup]. *)
Definition lineup_valid (db : Roster) : Prop :=
  valid (validate_lineup (map row_dict (rows db))) = true.

(** Every stored row names a position. *)
Definition positions_named (db : Roster) : Prop :=
  Forall (fun p => row_position p <> "") (rows db).

(** The requests that change the roster, with the fields of their forms. *)
Inductive Request : Type :=
| AddPlayer (name_field position_field team_field is_starter_field : string)
    (projection : float)
| AddFromSearch (player_id : option string) (full_name : string)
    (position_field team_field : option string) (target : string)
| Toggle (player_id : Z)
| Clear.

(** The table after a request. *)
Definition handle (db : Roster) (req : Request) : Roster :=
  match req with
  | AddPlayer n p t st proj => fst (add_player db n p t st proj)
  | AddFromSearch pid n p t target => fst (add_from_search db pid n p t target)
  | Toggle pid => fst (toggle_player_status db pid)
  | Clear => fst (clear_players db)
  end.

(** A request that does not come from a search result without a position. *)
Definition names_position (req : Request) : Prop :=
  match req with
  | AddFromSearch _ _ position_field _ _ =>
      exists s, position_field = Some s /\ s <> ""
  | _ => True
  end.

(** The values [_stable_variation] can take: [0.0] for the empty name, and
    one value for each residue of the hash. *)
Definition variation_of_residue (h : Z) : float :=
  (float_of_int h / 999.0) * 2.0 - 1.0.

Definition variation_values : list float :=
  0.0 :: map (fun k => variation_of_residue (Z.of_nat k)) (seq 0 1000).

(** The baseline of every position with the bonus [project_player] adds to
    it: one pair for each position without receptions (QB, K, DEF and D/ST,
    and the positions outside the tables), and one pair for each preset
    rate for RB, WR, TE and FLEX. *)
Definition base_bonus_values : list (float * float) :=
  [ (20.0, 0.0); (8.0, 0.0); (7.0, 0.0); (10.0, 0.0) ]
    ++ flat_map
         (fun '(base, receptions) =>
            map (fun rate => (base, receptions * rate * 0.15)) [0.0; 0.5; 1.0])
         [ (15.0, 3.5); (14.0, 6.0); (9.0, 4.5); (12.0, 5.0) ].

Definition team_values : list float := [1.0; 0.8; 0.5; 0.6; 0.0].

(** The sum [project_player] rounds, for one combination of looked-up
    values. *)
Definition projection_sum (base_bonus : float * float) (team_adj variation : float)
    : float :=
  fst base_bonus + team_adj + variation * 1.2 + snd base_bonus.

(** The sum lies between 5.796 and 22.204. *)
Definition sum_in_range (base_bonus : float * float) (team_adj variation : float)
    : bool :=
  PrimFloat.leb 5.796 (projection_sum base_bonus team_adj variation)
  && PrimFloat.leb (projection_sum base_bonus team_adj variation) 22.204.

(** The float nearest to [k] hundredths. *)
Definition of_hundredths (k : positive) : float :=
  SF2Prim (SFdiv prec emax (S754_finite false k 0) (S754_finite false 100 0)).

Definition hundredths_in_range (k : positive) : bool :=
  PrimFloat.ltb 0 (of_hundredths k) && PrimFloat.leb 5.8 (of_hundredths k)
  && PrimFloat.leb (of_hundredths k) 22.2.

(** The entry [by_position] makes of a player. *)
Definition index_entry (scoring_type : string) (p : Player) : Entry.t :=
  Entry.mk (name p) (counts_as_starter p) (calculate_player_score p scoring_type).

(** The players of a list at a normalized position, in their order. *)
Definition players_at (pos : string) (players : list Player) : list Player :=
  filter (fun p => String.eqb (position_of p) pos) players.

(** A float that is neither an infinity nor NaN. *)
Definition is_finite (x : float) : bool :=
  match Prim2SF x with
  | S754_zero _ | S754_finite _ _ _ => true
  | _ => false
  end.

(** The summary string as the specification words it. *)
Definition stated_final_summary (decision : string)
    (delta before_starter after_starter : float) : string :=
  "Decision: " ++ decision ++ " — starter Δ " ++ format_plus_2f delta
    ++ " (before " ++ format_2f before_starter ++ " → after "
    ++ format_2f after_starter ++ ")".

(** [0 <= x]: a zero of either sign, a positive number or [+inf]. *)
Definition sf_nonneg (x : spec_float) : Prop := SFleb (S754_zero false) x = true.

(** * Properties *)

(** [H : In (k, v) table], for a literal [table]: one goal per entry, with
    [v] replaced by the entry's value and [tac] run on it. *)
Ltac each_entry H tac :=
  repeat (destruct H as [H|H]; [injection H as _ <-; tac|]);
  try contradiction.

(** ** Ordered dictionaries *)

Section DictFacts.
Context {V : Type}.
Implicit Types (d : list (string * V)) (k : string) (v : V).

Lemma dict_get_set_same k v d : dict_get k (dict_set k v d) = Some v.
Proof.
  induction d as [|[k' v'] d IH]; simpl.
  - now rewrite String.eqb_refl.
  - destruct (String.eqb k' k) eqn:E; simpl; rewrite E; auto.
Qed.

Lemma dict_get_set_other k k' v d :
  k <> k' -> dict_get k' (dict_set k v d) = dict_get k' d.
Proof.
  intros Hne. induction d as [|[k0 v0] d IH]; simpl.
  - destruct (String.eqb k k') eqn:E; auto.
    apply String.eqb_eq in E; contradiction.
  - destruct (String.eqb k0 k) eqn:E; simpl.
    + apply String.eqb_eq in E; subst k0.
      destruct (String.eqb k k') eqn:E'; auto.
      apply String.eqb_eq in E'; contradiction.
    + now rewrite IH.
Qed.

Lemma dict_get_Some_In k v d : dict_get k d = Some v -> In (k, v) d.
Proof.
  induction d as [|[k' v'] d IH]; simpl; [discriminate|].
  destruct (String.eqb k' k) eqn:E; intros H.
  - apply String.eqb_eq in E. injection H as ->. subst. now left.
  - right; auto.
Qed.

Lemma dict_get_None k d : dict_get k d = None <-> ~ In k (dict_keys d).
Proof.
  induction d as [|[k' v'] d IH]; simpl.
  - tauto.
  - destruct (String.eqb k' k) eqn:E.
    + apply String.eqb_eq in E. split; [discriminate|]. intros H; exfalso; auto.
    + apply String.eqb_neq in E. rewrite IH. tauto.
Qed.

Lemma dict_get_In_keys k d : (exists v, dict_get k d = Some v) <-> In k (dict_keys d).
Proof.
  pose proof (dict_get_None k d) as H.
  destruct (dict_get k d) as [v|].
  - split; [intros _|intros _; eauto].
    destruct (in_dec string_dec k (dict_keys d)) as [Hin|Hout]; auto.
    apply H in Hout. discriminate.
  - split; [intros [v Hv]; discriminate|].
    intros Hin. exfalso. now apply (proj1 H).
Qed.

Lemma NoDup_In_dict_get k v d :
  NoDup (dict_keys d) -> In (k, v) d -> dict_get k d = Some v.
Proof.
  induction d as [|[k' v'] d IH]; simpl; [tauto|].
  intros Hnd [Heq|Hin].
  - injection Heq as -> ->. now rewrite String.eqb_refl.
  - inversion Hnd as [|? ? Hnotin Hnd']; subst.
    destruct (String.eqb k' k) eqn:E.
    + apply String.eqb_eq in E; subst k'. exfalso. apply Hnotin.
      unfold dict_keys. change k with (fst (k, v)). now apply in_map.
    + auto.
Qed.

Lemma dict_keys_set k v d :
  dict_keys (dict_set k v d) =
  if in_dec string_dec k (dict_keys d) then dict_keys d
  else (dict_keys d ++ [k])%list.
Proof.
  induction d as [|[k' v'] d IH]; simpl; auto.
  destruct (String.eqb k' k) eqn:E; simpl.
  - apply String.eqb_eq in E; subst.
    destruct (string_dec k k); [|contradiction]. reflexivity.
  - apply String.eqb_neq in E.
    destruct (string_dec k' k); [contradiction|].
    rewrite IH. destruct (in_dec string_dec k (dict_keys d)); reflexivity.
Qed.

Lemma In_dict_keys_set k k' v d :
  In k' (dict_keys (dict_set k v d)) <-> k' = k \/ In k' (dict_keys d).
Proof.
  rewrite dict_keys_set.
  destruct (in_dec string_dec k (dict_keys d)) as [Hin|Hout].
  - split; [tauto|]. intros [->|H]; auto.
  - rewrite in_app_iff. simpl. intuition.
Qed.

Lemma NoDup_dict_keys_set k v d :
  NoDup (dict_keys d) -> NoDup (dict_keys (dict_set k v d)).
Proof.
  intros Hnd. rewrite dict_keys_set.
  destruct (in_dec string_dec k (dict_keys d)) as [Hin|Hout]; auto.
  apply NoDup_rev in Hnd. rewrite <- (rev_involutive (_ ++ _)%list).
  apply NoDup_rev. rewrite rev_app_distr. simpl.
  constructor; auto. now rewrite <- in_rev.
Qed.

(** A dictionary filled from the items of another one, whose keys are
    distinct, repeats its order. *)
Lemma fold_dict_set_fresh {W : Type} (f : V -> W) (l : list (string * V)) :
  forall acc : list (string * W),
    NoDup (dict_keys acc ++ dict_keys l) ->
    fold_left (fun c '(k, v) => dict_set k (f v) c) l acc =
    (acc ++ map (fun '(k, v) => (k, f v)) l)%list.
Proof.
  induction l as [|[k v] l IH]; intros acc Hnd; simpl.
  - now rewrite app_nil_r.
  - assert (Hset : dict_set k (f v) acc = (acc ++ [(k, f v)])%list).
    { assert (Hout : ~ In k (dict_keys acc)).
      { intros Hin. simpl in Hnd. apply NoDup_remove_2 in Hnd.
        apply Hnd. apply in_or_app. now left. }
      clear - Hout. induction acc as [|[k0 v0] acc IHa]; simpl; auto.
      destruct (String.eqb k0 k) eqn:E.
      - apply String.eqb_eq in E. subst. exfalso. apply Hout. now left.
      - rewrite IHa; auto. intros H. apply Hout. now right. }
    rewrite Hset, IH.
    + now rewrite <- app_assoc.
    + unfold dict_keys in *. rewrite map_app. simpl.
      rewrite <- app_assoc. exact Hnd.
Qed.
End DictFacts.

(** ** The starter flag *)

Lemma explicit_starter_position p : position_of (explicit_starter p) = position_of p.
Proof. unfold explicit_starter. now destruct (is_starter p). Qed.

Lemma explicit_starter_score p st :
  calculate_player_score (explicit_starter p) st = calculate_player_score p st.
Proof. unfold explicit_starter. now destruct (is_starter p). Qed.

Lemma explicit_starter_flag p :
  get_truthy_default_true (is_starter (explicit_starter p)) =
  get_truthy_default_true (is_starter p).
Proof. unfold explicit_starter. now destruct (is_starter p) eqn:E; simpl; rewrite ?E. Qed.

Lemma explicit_starter_name p : name (explicit_starter p) = name p.
Proof. unfold explicit_starter. now destruct (is_starter p). Qed.

Lemma fold_left_map_ext {A B C : Type} (f : A -> B -> A) (g : A -> C -> A)
    (h : C -> B) (l : list C) :
  (forall a c, f a (h c) = g a c) ->
  forall a, fold_left f (map h l) a = fold_left g l a.
Proof.
  intros Hfg. induction l as [|c l IH]; intros a; simpl; auto.
  now rewrite Hfg, IH.
Qed.

(** The record as the specification reads it, and as the code does. *)

Lemma position_of_normalized p : position_of p = normalized_position p.
Proof.
  unfold position_of, normalized_position.
  destruct (position p) as [[|c s]|]; reflexivity.
Qed.

Lemma counts_as_starter_stated p : counts_as_starter p = stated_starter p.
Proof. reflexivity. Qed.

Lemma players_at_stated pos players : players_at pos players = at_position pos players.
Proof.
  unfold players_at, at_position. apply filter_ext.
  intros p. now rewrite position_of_normalized.
Qed.

Lemma starters_at_stated players pos :
  starters_at players pos = stated_starters_at players pos.
Proof.
  unfold starters_at, stated_starters_at, at_position. f_equal. f_equal.
  induction players as [|p players IH]; simpl; [reflexivity|].
  rewrite position_of_normalized, counts_as_starter_stated.
  destruct (stated_starter p) eqn:Es, (String.eqb (normalized_position p) pos);
    simpl; rewrite ?Es; simpl; now rewrite IH.
Qed.

(** ** Team strength *)

Lemma team_strength_v3_from players st : forall s b,
  fold_left (strength_step st) players (s, b) =
  (fold_left PrimFloat.add
     (map (fun p => calculate_player_score p st) (filter counts_as_starter players)) s,
   fold_left PrimFloat.add
     (map (fun p => calculate_player_score p st)
        (filter (fun p => negb (counts_as_starter p)) players)) b).
Proof.
  induction players as [|p players IH]; intros s b; simpl; auto.
  change (get_truthy_default_true (is_starter p)) with (counts_as_starter p).
  destruct (counts_as_starter p); simpl; apply IH.
Qed.

Lemma filter_partition_Permutation {A : Type} (f : A -> bool) (l : list A) :
  Permutation (filter f l ++ filter (fun x => negb (f x)) l) l.
Proof.
  induction l as [|x l IH]; simpl; auto.
  destruct (f x); simpl.
  - now constructor.
  - apply Permutation_sym, Permutation_cons_app. now apply Permutation_sym.
Qed.

(** C4, as the code has it.  The starter total is the left-to-right float sum
    of the scores of the starters and the bench total that of the others;
    the two groups together are a rearrangement of the whole list, so the
    two totals add up to the sum over the whole list up to the order of the
    floating-point additions; the empty list yields [(0.0, 0.0)]. *)
Theorem team_strength_v3_partition (players : list Player) (scoring_type : string) :
  let score := fun p => calculate_player_score p scoring_type in
  team_strength_v3 players scoring_type
  = (Py.sum (map score (filter counts_as_starter players)),
     Py.sum (map score (filter (fun p => negb (counts_as_starter p)) players)))
  /\ Permutation
       (map score (filter counts_as_starter players)
          ++ map score (filter (fun p => negb (counts_as_starter p)) players))
       (map score players)
  /\ team_strength_v3 [] scoring_type = (0, 0).
Proof.
  cbv zeta. split; [|split].
  - apply team_strength_v3_from.
  - rewrite <- map_app. apply Permutation_map, filter_partition_Permutation.
  - reflexivity.
Qed.

(** C4, as stated, fails on floats: with one starter of score [0.1] and two
    bench players of scores [0.2] and [0.3] the totals are [0.1] and [0.5],
    whose sum [0.6] is not the sum [0.6000000000000001] of the three scores
    taken in list order. *)
Lemma team_strength_v3_sum_not_exact :
  let players :=
    [ mkPlayer "A" (Some "QB") None (Some 0.1) (Val true);
      mkPlayer "B" (Some "QB") None (Some 0.2) (Val false);
      mkPlayer "C" (Some "QB") None (Some 0.3) (Val false) ] in
  let totals := team_strength_v3 players "PPR" in
  PrimFloat.eqb (fst totals + snd totals)
    (Py.sum (map (fun p => calculate_player_score p "PPR") players)) = false
  /\ fst totals + snd totals
     <> Py.sum (map (fun p => calculate_player_score p "PPR") players).
Proof.
  cbv zeta.
  assert (H : PrimFloat.eqb
                (fst (team_strength_v3
                   [ mkPlayer "A" (Some "QB") None (Some 0.1) (Val true);
                     mkPlayer "B" (Some "QB") None (Some 0.2) (Val false);
                     mkPlayer "C" (Some "QB") None (Some 0.3) (Val false) ] "PPR")
                 + snd (team_strength_v3
                   [ mkPlayer "A" (Some "QB") None (Some 0.1) (Val true);
                     mkPlayer "B" (Some "QB") None (Some 0.2) (Val false);
                     mkPlayer "C" (Some "QB") None (Some 0.3) (Val false) ] "PPR"))
                (Py.sum (map (fun p => calculate_player_score p "PPR")
                   [ mkPlayer "A" (Some "QB") None (Some 0.1) (Val true);
                     mkPlayer "B" (Some "QB") None (Some 0.2) (Val false);
                     mkPlayer "C" (Some "QB") None (Some 0.3) (Val false) ]))
              = false) by (vm_compute; reflexivity).
  split; [exact H|].
  intros Heq. rewrite Heq in H. vm_compute in H. discriminate H.
Qed.

(** ** Position breakdown *)

Lemma breakdown_step_keys st bd p :
  dict_keys (breakdown_step st bd p) =
  if in_dec string_dec (position_of p) (dict_keys bd) then dict_keys bd
  else (dict_keys bd ++ [position_of p])%list.
Proof.
  unfold breakdown_step.
  destruct (get_truthy_default_true (is_starter p)); apply dict_keys_set.
Qed.

Lemma breakdown_fold_NoDup st players : forall bd,
  NoDup (dict_keys bd) ->
  NoDup (dict_keys (fold_left (breakdown_step st) players bd)).
Proof.
  induction players as [|p players IH]; intros bd Hnd; simpl; auto.
  apply IH. unfold breakdown_step.
  destruct (get_truthy_default_true (is_starter p)); now apply NoDup_dict_keys_set.
Qed.

Lemma breakdown_fold_keys st players : forall bd pos,
  In pos (dict_keys (fold_left (breakdown_step st) players bd)) <->
  In pos (dict_keys bd) \/ exists p, In p players /\ position_of p = pos.
Proof.
  induction players as [|p players IH]; intros bd pos; simpl.
  - split; [tauto|]. intros [H|[p [[] _]]]; auto.
  - rewrite IH.
    assert (Hk : In pos (dict_keys (breakdown_step st bd p)) <->
                 pos = position_of p \/ In pos (dict_keys bd)).
    { unfold breakdown_step.
      destruct (get_truthy_default_true (is_starter p)); apply In_dict_keys_set. }
    rewrite Hk. split.
    + intros [[->|H]|[q [Hq Hpos]]]; eauto.
    + intros [H|[q [[->|Hq] Hpos]]]; eauto.
Qed.

Lemma position_breakdown_v3_NoDup players st :
  NoDup (dict_keys (position_breakdown_v3 players st)).
Proof. apply breakdown_fold_NoDup. constructor. Qed.

Lemma position_breakdown_v3_keys players st pos :
  In pos (dict_keys (position_breakdown_v3 players st)) <->
  exists p, In p players /\ position_of p = pos.
Proof.
  unfold position_breakdown_v3. rewrite breakdown_fold_keys. simpl. tauto.
Qed.

Lemma position_breakdown_as_map players :
  position_breakdown players = map combine_split (position_breakdown_v3 players "PPR").
Proof.
  unfold position_breakdown.
  rewrite (fold_dict_set_fresh (fun sc => starter sc + bench sc)).
  - reflexivity.
  - simpl. apply position_breakdown_v3_NoDup.
Qed.

(** C10. The legacy [team_strength] is the starter component of
    [team_strength_v3] on the same inputs, and the legacy
    [position_breakdown] maps every position present in the input, and no
    other, to the sum of the starter and bench components that
    [position_breakdown_v3] gives it under the PPR preset. *)
Theorem legacy_functions_refine_v3 (players : list Player) (scoring : string) :
  team_strength players scoring = fst (team_strength_v3 players scoring)
  /\ position_breakdown players
     = map combine_split (position_breakdown_v3 players "PPR")
  /\ (forall pos, In pos (dict_keys (position_breakdown players)) <->
                  exists p, In p players /\ position_of p = pos)
  /\ (forall pos, dict_get pos (position_breakdown players)
                  = option_map (fun sc => starter sc + bench sc)
                      (dict_get pos (position_breakdown_v3 players "PPR"))).
Proof.
  split; [|split; [|split]].
  - unfold team_strength. now destruct (team_strength_v3 players scoring).
  - apply position_breakdown_as_map.
  - intros pos. rewrite position_breakdown_as_map.
    rewrite <- position_breakdown_v3_keys with (st := "PPR").
    unfold dict_keys. rewrite map_map.
    erewrite map_ext; [reflexivity|]. now intros [k v].
  - intros pos. rewrite position_breakdown_as_map.
    induction (position_breakdown_v3 players "PPR") as [|[k v] d IH]; simpl; auto.
    destruct (String.eqb k pos); auto.
Qed.

(** ** Lineup validation *)

Lemma starters_at_nonneg players pos : (0 <= starters_at players pos)%Z.
Proof. unfold starters_at. lia. Qed.

Lemma starters_at_cons p players pos :
  starters_at (p :: players) pos
  = ((if counts_as_starter p && String.eqb (position_of p) pos then 1 else 0)
     + starters_at players pos)%Z.
Proof.
  unfold starters_at. simpl.
  destruct (counts_as_starter p && String.eqb (position_of p) pos); simpl List.length; lia.
Qed.

Lemma starters_at_pos_iff players pos :
  (0 < starters_at players pos)%Z <->
  exists p, In p players /\ counts_as_starter p = true /\ position_of p = pos.
Proof.
  induction players as [|q players IH].
  - unfold starters_at; simpl. split; [lia|]. now intros [p [[] _]].
  - rewrite starters_at_cons.
    destruct (counts_as_starter q && String.eqb (position_of q) pos) eqn:E.
    + apply andb_true_iff in E. destruct E as [E1 E2]. apply String.eqb_eq in E2.
      split; [intros _|intros _; pose proof (starters_at_nonneg players pos); lia].
      exists q. simpl. auto.
    + split.
      * intros H. assert (H' : (0 < starters_at players pos)%Z) by lia.
        apply IH in H'. destruct H' as [p [Hin Hp]]. exists p. simpl. auto.
      * intros [p [[->|Hin] [H1 H2]]].
        -- rewrite H1 in E. simpl in E. apply String.eqb_neq in E. contradiction.
        -- assert (0 < starters_at players pos)%Z by (apply IH; eauto). lia.
Qed.

Lemma dict_get_default_set_same {V : Type} k (v dflt : V) d :
  dict_get_default k dflt (dict_set k v d) = v.
Proof. unfold dict_get_default. now rewrite dict_get_set_same. Qed.

Lemma dict_get_default_set_other {V : Type} k k' (v dflt : V) d :
  k <> k' -> dict_get_default k' dflt (dict_set k v d) = dict_get_default k' dflt d.
Proof. intros H. unfold dict_get_default. now rewrite dict_get_set_other. Qed.

Lemma count_fold_get players : forall counts pos,
  dict_get_default pos 0%Z (fold_left count_step players counts)
  = (dict_get_default pos 0%Z counts + starters_at players pos)%Z.
Proof.
  induction players as [|p players IH]; intros counts pos.
  - unfold starters_at; simpl. lia.
  - simpl. rewrite IH, starters_at_cons. unfold count_step.
    change (get_truthy_default_true (is_starter p)) with (counts_as_starter p).
    destruct (counts_as_starter p); simpl; [|lia].
    destruct (String.eqb (position_of p) pos) eqn:E.
    + apply String.eqb_eq in E. subst pos. rewrite dict_get_default_set_same. lia.
    + apply String.eqb_neq in E. rewrite dict_get_default_set_other by exact E. lia.
Qed.

Lemma count_fold_NoDup players : forall counts,
  NoDup (dict_keys counts) -> NoDup (dict_keys (fold_left count_step players counts)).
Proof.
  induction players as [|p players IH]; intros counts Hnd; simpl; auto.
  apply IH. unfold count_step.
  destruct (get_truthy_default_true (is_starter p)); auto.
  now apply NoDup_dict_keys_set.
Qed.

Lemma count_fold_keys players : forall counts pos,
  In pos (dict_keys (fold_left count_step players counts)) <->
  In pos (dict_keys counts) \/ (0 < starters_at players pos)%Z.
Proof.
  induction players as [|p players IH]; intros counts pos.
  - unfold starters_at; simpl. split; [tauto|]. intros [H|H]; [auto|lia].
  - simpl. rewrite IH, starters_at_cons. unfold count_step.
    change (get_truthy_default_true (is_starter p)) with (counts_as_starter p).
    pose proof (starters_at_nonneg players pos).
    destruct (counts_as_starter p); simpl.
    + rewrite In_dict_keys_set.
      destruct (String.eqb (position_of p) pos) eqn:E.
      * apply String.eqb_eq in E. split; [intros _; right; lia|intros _; left; left; auto].
      * apply String.eqb_neq in E. split.
        -- intros [[->|Hin]|Hp]; [contradiction|auto|right; lia].
        -- intros [Hin|Hp]; [auto|right; lia].
    + split; (intros [Hin|Hp]; [auto|right; lia]).
Qed.

Lemma count_starters_In players pos c :
  In (pos, c) (count_starters players) <->
  c = starters_at players pos /\ (0 < c)%Z.
Proof.
  unfold count_starters.
  assert (Hnd : NoDup (dict_keys (fold_left count_step players [])))
    by (apply count_fold_NoDup; constructor).
  pose proof (count_fold_get players [] pos) as Hget.
  pose proof (count_fold_keys players [] pos) as Hkeys.
  unfold dict_get_default in Hget at 2. simpl in Hget, Hkeys.
  split.
  - intros Hin. pose proof (NoDup_In_dict_get _ _ _ Hnd Hin) as Hsome.
    unfold dict_get_default in Hget. rewrite Hsome in Hget. subst c.
    split; auto.
    assert (Hk : In pos (dict_keys (fold_left count_step players []))).
    { unfold dict_keys. change pos with (fst (pos, starters_at players pos)).
      now apply in_map. }
    apply Hkeys in Hk. tauto.
  - intros [-> Hpos].
    assert (Hk : In pos (dict_keys (fold_left count_step players []))) by tauto.
    apply dict_get_In_keys in Hk. destruct Hk as [v Hv].
    unfold dict_get_default in Hget. rewrite Hv in Hget. subst v.
    now apply dict_get_Some_In.
Qed.

Lemma check_limits_In counts v :
  In v (check_limits counts) <->
  exists pos c, In (pos, c) counts /\ (limit_of pos < c)%Z
                /\ v = Violation.mk pos c (limit_of pos) (c - limit_of pos).
Proof.
  unfold check_limits. rewrite in_flat_map. split.
  - intros [[pos c] [Hin Hv]]. fold (limit_of pos) in Hv.
    destruct (limit_of pos <? c)%Z eqn:E; [|contradiction].
    destruct Hv as [<-|[]]. apply Z.ltb_lt in E. eauto.
  - intros [pos [c [Hin [Hlt ->]]]]. exists (pos, c). split; auto.
    fold (limit_of pos). apply Z.ltb_lt in Hlt. rewrite Hlt. now left.
Qed.

Lemma check_limits_positions counts :
  NoDup (dict_keys counts) -> NoDup (map Violation.position (check_limits counts)).
Proof.
  induction counts as [|[pos c] counts IH]; simpl; intros Hnd; [constructor|].
  inversion Hnd as [|? ? Hout Hnd']; subst.
  rewrite map_app. fold (limit_of pos).
  destruct (limit_of pos <? c)%Z; simpl; auto.
  constructor; auto.
  intros Hin. apply in_map_iff in Hin. destruct Hin as [v [Hpos Hv]].
  apply check_limits_In in Hv. destruct Hv as [pos' [c' [Hin' [_ ->]]]].
  simpl in Hpos. subst pos'. apply Hout.
  unfold dict_keys. change pos with (fst (pos, c')). now apply in_map.
Qed.

Lemma limit_of_unrecognized pos :
  ~ In pos (dict_keys POSITION_LIMITS) -> limit_of pos = 1%Z.
Proof.
  intros H. apply dict_get_None in H. unfold limit_of, dict_get_default.
  now rewrite H.
Qed.

Lemma limit_of_positive pos : (1 <= limit_of pos)%Z.
Proof.
  unfold limit_of, dict_get_default.
  destruct (dict_get pos POSITION_LIMITS) as [l|] eqn:E; [|lia].
  apply dict_get_Some_In in E. unfold POSITION_LIMITS in E. simpl in E.
  each_entry E lia.
Qed.

(** C5. Lineup validation counts, per upper-cased position (["UNK"] for a
    missing or empty one), the players whose [is_starter] is true or
    missing; its violations are, one per position, exactly the records
    [{position, current, limit, excess}] of the positions whose starter count
    exceeds the limit (1 for a position outside the table), with
    [excess = current - limit]; and [valid] holds exactly when there is no
    violation. *)
Theorem validate_lineup_spec (players : list Player) :
  let r := validate_lineup players in
  (forall pos,
     dict_get_default pos 0%Z (starter_counts r) = stated_starters_at players pos)
  /\ (forall v, In v (violations r) <->
        (limit_of (Violation.position v)
         < stated_starters_at players (Violation.position v))%Z
        /\ Violation.current v = stated_starters_at players (Violation.position v)
        /\ Violation.limit v = limit_of (Violation.position v)
        /\ Violation.excess v = (Violation.current v - Violation.limit v)%Z)
  /\ NoDup (map Violation.position (violations r))
  /\ (valid r = true <-> violations r = [])
  /\ (forall pos, ~ In pos (dict_keys POSITION_LIMITS) -> limit_of pos = 1%Z).
Proof.
  cbv zeta. unfold validate_lineup. simpl.
  split; [|split; [|split; [|split]]].
  - intros pos. rewrite <- starters_at_stated. unfold count_starters.
    rewrite count_fold_get. unfold dict_get_default. simpl. lia.
  - intros v. rewrite <- starters_at_stated, check_limits_In. split.
    + intros [pos [c [Hin [Hlt ->]]]]. simpl.
      apply count_starters_In in Hin. destruct Hin as [-> _]. auto.
    + intros [Hlt [Hc [Hl He]]].
      exists (Violation.position v), (Violation.current v).
      pose proof (limit_of_positive (Violation.position v)).
      split; [apply count_starters_In; split; [auto|lia]|].
      split; [lia|].
      destruct v as [pos c l e]. simpl in *. subst. reflexivity.
  - apply check_limits_positions. apply count_fold_NoDup. constructor.
  - destruct (check_limits (count_starters players)); simpl; split;
      auto; discriminate.
  - apply limit_of_unrecognized.
Qed.

(** Scenario E with the position in three spellings, a missing [is_starter]
    and a fourth running back on the bench: the one violation is
    [{RB, 3, 2, 1}]. *)
Lemma validate_lineup_spec_witness :
  let roster :=
    [ mkPlayer "A" (Some "RB") None (Some 10) (Val true);
      mkPlayer "B" (Some "rb") None (Some 9) Absent;
      mkPlayer "C" (Some "Rb") None (Some 8) (Val true);
      mkPlayer "D" (Some "RB") None (Some 7) (Val false);
      mkPlayer "E" None None (Some 6) (Val true) ] in
  In (Violation.mk "RB" 3 2 1) (violations (validate_lineup roster))
  /\ dict_get_default "UNK" 0%Z (starter_counts (validate_lineup roster)) = 1%Z
  /\ ~ In (Violation.mk "RB" 4 2 2) (violations (validate_lineup roster)).
Proof.
  cbv zeta.
  match goal with
  | |- In _ (violations (validate_lineup ?l)) /\ _ =>
      destruct (validate_lineup_spec l) as [Hcount [Hviol _]]
  end.
  cbv zeta in Hcount, Hviol.
  split; [|split].
  - apply Hviol. repeat split.
  - rewrite Hcount. reflexivity.
  - intros Hin. apply Hviol in Hin. destruct Hin as [_ [Hcur _]]. discriminate Hcur.
Defined.

(** Scenario B: two RB starters and one RB on the bench meet the limit of
    two, and no further RB starter can be added. *)
Example validate_lineup_two_rb :
  let roster :=
    [ mkPlayer "A" (Some "RB") None (Some 10) (Val true);
      mkPlayer "B" (Some "RB") None (Some 10) (Val true);
      mkPlayer "C" (Some "RB") None (Some 5) (Val false) ] in
  validate_lineup roster
  = mkValidation true [] [("RB", 2%Z)] POSITION_LIMITS
  /\ can_add_starter roster "rb" = false
  /\ can_add_starter roster "QB" = true.
Proof. repeat split. Qed.

(** Scenario E: three RB starters against a limit of two. *)
Example validate_lineup_three_rb :
  violations
    (validate_lineup
       [ mkPlayer "A" (Some "RB") None (Some 10) (Val true);
         mkPlayer "B" (Some "rb") None (Some 9) Absent;
         mkPlayer "C" (Some "Rb") None (Some 8) (Val true);
         mkPlayer "D" (Some "RB") None (Some 7) (Val false) ])
  = [Violation.mk "RB" 3 2 1].
Proof. reflexivity. Qed.

(** ** Signs of float products and sums

    The IEEE operations are read through their specification on
    [spec_float]. *)

Module FloatFacts.

Local Open Scope Z_scope.

Lemma sf_nonneg_cases x :
  sf_nonneg x <->
  (exists s, x = S754_zero s) \/ x = S754_infinity false
  \/ exists m e, x = S754_finite false m e.
Proof.
  unfold sf_nonneg, SFleb. split.
  - destruct x as [s|[|]| |[|] m e]; simpl; try discriminate; eauto.
  - intros [[s ->]|[->|[m [e ->]]]]; reflexivity.
Qed.

Lemma iter_pos_invariant {A : Type} (P : A -> Prop) (f : A -> A) :
  (forall x, P x -> P (f x)) ->
  forall p x, P x -> P (SpecFloat.iter_pos f p x).
Proof.
  intros Hf. induction p as [p IH|p IH|]; simpl; intros x Hx; auto.
Qed.

Lemma shr_1_nonneg mrs : 0 <= shr_m mrs -> 0 <= shr_m (shr_1 mrs).
Proof.
  destruct mrs as [m r s]. destruct m as [|[p|p|]|[p|p|]]; simpl; lia.
Qed.

Lemma shr_nonneg mrs e n : 0 <= shr_m mrs -> 0 <= shr_m (fst (shr mrs e n)).
Proof.
  intros H. unfold shr. destruct n; simpl; auto.
  apply (iter_pos_invariant (fun r => 0 <= shr_m r)); auto using shr_1_nonneg.
Qed.

Lemma shr_fexp_nonneg m e l :
  0 <= m -> 0 <= shr_m (fst (shr_fexp prec emax m e l)).
Proof.
  intros H. unfold shr_fexp. apply shr_nonneg. now destruct l as [|[]].
Qed.

Lemma round_nearest_even_nonneg m l : 0 <= m -> 0 <= round_nearest_even m l.
Proof.
  intros H. destruct l as [|[]]; simpl; try lia. destruct (Z.even m); lia.
Qed.

Lemma binary_round_aux_nonneg m e l :
  0 <= m -> sf_nonneg (binary_round_aux prec emax false m e l).
Proof.
  intros H. unfold binary_round_aux.
  pose proof (shr_fexp_nonneg m e l H) as H1.
  destruct (shr_fexp prec emax m e l) as [mrs' e']. simpl in H1.
  pose proof (shr_fexp_nonneg _ e' loc_Exact
                (round_nearest_even_nonneg _ (loc_of_shr_record mrs') H1)) as H2.
  destruct (shr_fexp prec emax _ e' loc_Exact) as [mrs'' e'']. simpl in H2.
  destruct (shr_m mrs'') as [|p|p]; [reflexivity| |lia].
  destruct (e'' <=? emax - prec); reflexivity.
Qed.

Lemma SFmul_nonneg x m e :
  sf_nonneg x -> sf_nonneg (SF64mul x (S754_finite false m e)).
Proof.
  intros Hx. apply sf_nonneg_cases in Hx.
  destruct Hx as [[s ->]|[->|[mx [ex ->]]]]; simpl; try reflexivity.
  apply binary_round_aux_nonneg. lia.
Qed.

Lemma SFadd_nonneg x y : sf_nonneg x -> sf_nonneg y -> sf_nonneg (SF64add x y).
Proof.
  intros Hx Hy. apply sf_nonneg_cases in Hx, Hy.
  destruct Hx as [[sx ->]|[->|[mx [ex ->]]]];
    destruct Hy as [[sy ->]|[->|[my [ey ->]]]]; simpl; try reflexivity.
  - now destruct sx, sy.
  - unfold binary_normalize, binary_round.
    destruct (shl_align _ _ _) as [mz ez].
    apply binary_round_aux_nonneg. lia.
Qed.

Local Open Scope float_scope.

(** [0 <= x * w + c] when [0 <= x], [w] is a positive number and [0 <= c]. *)
Lemma mul_add_nonneg (x w c : float) :
  (0 <=? x) = true ->
  (exists m e, Prim2SF w = S754_finite false m e) ->
  (0 <=? c) = true ->
  (0 <=? x * w + c) = true.
Proof.
  rewrite !leb_spec, add_spec, mul_spec.
  change (Prim2SF 0) with (S754_zero false).
  intros Hx [m [e Hw]] Hc. rewrite Hw.
  apply SFadd_nonneg; [apply SFmul_nonneg|]; assumption.
Qed.

End FloatFacts.

(** ** Player score *)

Lemma calculate_player_score_formula player scoring_type :
  calculate_player_score player scoring_type
  = projection_of player * position_weight (position_of player)
    + get_avg_receptions_by_position (position_of player)
      * preset_reception_bonus scoring_type.
Proof.
  unfold calculate_player_score, preset_reception_bonus, position_weight.
  unfold dict_get_default at 2.
  now destruct (dict_get scoring_type SCORING_PRESETS).
Qed.

Lemma position_weight_positive pos :
  exists m e, Prim2SF (position_weight pos) = S754_finite false m e.
Proof.
  unfold position_weight, dict_get_default.
  destruct (dict_get pos POSITION_WEIGHTS) as [w|] eqn:E.
  - apply dict_get_Some_In in E. unfold POSITION_WEIGHTS in E. simpl in E.
    each_entry E ltac:(vm_compute; eexists; eexists; reflexivity).
  - vm_compute. eexists; eexists; reflexivity.
Qed.

Lemma reception_bonus_nonneg pos scoring_type :
  (0 <=? get_avg_receptions_by_position pos * preset_reception_bonus scoring_type)
  = true.
Proof.
  unfold get_avg_receptions_by_position, preset_reception_bonus, dict_get_default.
  match goal with
  | |- context [dict_get pos ?t] =>
      destruct (dict_get pos t) as [r|] eqn:Er;
      [apply dict_get_Some_In in Er; simpl in Er|]
  end;
  (destruct (dict_get scoring_type SCORING_PRESETS) as [b|] eqn:Eb;
   [apply dict_get_Some_In in Eb; unfold SCORING_PRESETS in Eb; simpl in Eb|]).
  - each_entry Er ltac:(each_entry Eb reflexivity).
  - each_entry Er reflexivity.
  - each_entry Eb reflexivity.
  - reflexivity.
Qed.

Lemma projection_of_nonneg player :
  (forall x, projection player = Some x -> (0 <=? x) = true) ->
  (0 <=? projection_of player) = true.
Proof.
  intros H. unfold projection_of.
  destruct (projection player) as [x|]; [|reflexivity].
  destruct (x =? 0); [reflexivity|]. now apply H.
Qed.

(** The product of a reception estimate and a preset bonus is [+0.0] or a
    positive number. *)
Lemma reception_bonus_sign pos scoring_type :
  Prim2SF (get_avg_receptions_by_position pos * preset_reception_bonus scoring_type)
  = S754_zero false
  \/ exists m e,
       Prim2SF (get_avg_receptions_by_position pos
                * preset_reception_bonus scoring_type)
       = S754_finite false m e.
Proof.
  unfold get_avg_receptions_by_position, preset_reception_bonus, dict_get_default.
  match goal with
  | |- context [dict_get pos ?t] =>
      destruct (dict_get pos t) as [r|] eqn:Er;
      [apply dict_get_Some_In in Er; simpl in Er|]
  end;
  (destruct (dict_get scoring_type SCORING_PRESETS) as [b|] eqn:Eb;
   [apply dict_get_Some_In in Eb; unfold SCORING_PRESETS in Eb; simpl in Eb|]).
  - each_entry Er ltac:(each_entry Eb
      ltac:(vm_compute; first [left; reflexivity | right; eexists; eexists; reflexivity])).
  - each_entry Er
      ltac:(vm_compute; first [left; reflexivity | right; eexists; eexists; reflexivity]).
  - each_entry Eb
      ltac:(vm_compute; first [left; reflexivity | right; eexists; eexists; reflexivity]).
  - vm_compute. left. reflexivity.
Qed.

(** [x or 0] turns a zero of either sign into [0]; the score does not tell
    the two apart. *)
Lemma zero_projection_score (x w c : float) :
  (x =? 0) = true ->
  (exists m e, Prim2SF w = S754_finite false m e) ->
  (Prim2SF c = S754_zero false \/ exists m e, Prim2SF c = S754_finite false m e) ->
  0 * w + c = x * w + c.
Proof.
  rewrite FloatAxioms.eqb_spec. change (Prim2SF 0) with (S754_zero false).
  intros Hx [mw [ew Hw]] Hc.
  rewrite <- (SF2Prim_Prim2SF (0 * w + c)), <- (SF2Prim_Prim2SF (x * w + c)).
  f_equal. rewrite !add_spec, !mul_spec, Hw.
  change (Prim2SF 0) with (S754_zero false).
  destruct (Prim2SF x) as [s|s| |s m e]; try (destruct s; discriminate);
    try discriminate.
  destruct Hc as [->|[m [e ->]]]; destruct s; reflexivity.
Qed.

Lemma projection_of_stated player w c :
  (exists m e, Prim2SF w = S754_finite false m e) ->
  (Prim2SF c = S754_zero false \/ exists m e, Prim2SF c = S754_finite false m e) ->
  projection_of player * w + c = stated_projection player * w + c.
Proof.
  intros Hw Hc. unfold projection_of, stated_projection.
  destruct (projection player) as [x|]; [|reflexivity].
  destruct (x =? 0) eqn:E; [|reflexivity].
  now apply zero_projection_score.
Qed.

(** C2. The score of a player under a preset key is
    [projection * positionWeight(position) + avgReceptions(position) *
    presetReceptionBonus(preset)], with the projection of the record ([0]
    when it is missing) and its position upper-cased (["UNK"] when it is
    missing or empty); a position outside the tables has weight [1.0] and
    [0] receptions; an unknown preset key has the bonus of PPR; and the
    score is [>= 0] whenever the projection is, for every preset key. *)
Theorem calculate_player_score_spec (player : Player) (scoring_type : string) :
  calculate_player_score player scoring_type
  = stated_projection player * position_weight (normalized_position player)
    + get_avg_receptions_by_position (normalized_position player)
      * preset_reception_bonus scoring_type
  /\ (forall pos, ~ In pos (dict_keys POSITION_WEIGHTS) ->
        position_weight pos = 1.0 /\ get_avg_receptions_by_position pos = 0)
  /\ (~ In scoring_type (dict_keys SCORING_PRESETS) ->
        preset_reception_bonus scoring_type = preset_reception_bonus "PPR")
  /\ ((forall x, projection player = Some x -> (0 <=? x) = true) ->
        (0 <=? calculate_player_score player scoring_type) = true).
Proof.
  split; [|split; [|split]].
  - rewrite calculate_player_score_formula, position_of_normalized.
    apply projection_of_stated.
    + apply position_weight_positive.
    + apply reception_bonus_sign.
  - intros pos Hout. split.
    + apply dict_get_None in Hout. unfold position_weight, dict_get_default.
      now rewrite Hout.
    + unfold get_avg_receptions_by_position, dict_get_default.
      match goal with
      | |- context [dict_get pos ?t] =>
          assert (Hr : dict_get pos t = None) by (apply dict_get_None; exact Hout)
      end.
      now rewrite Hr.
  - intros Hout. apply dict_get_None in Hout. unfold preset_reception_bonus.
    now rewrite Hout.
  - intros Hproj. rewrite calculate_player_score_formula.
    apply FloatFacts.mul_add_nonneg.
    + now apply projection_of_nonneg.
    + apply position_weight_positive.
    + apply reception_bonus_nonneg.
Qed.

(** A wide receiver projected at [10] under an unknown preset key scores
    [10 * 1.08 + 6.0 * 1.0], the float [16.8]. *)
Lemma calculate_player_score_spec_witness :
  calculate_player_score (mkPlayer "A" (Some "wr") None (Some 10) (Val true)) "Custom"
  = 10 * 1.08 + 6.0 * 1.0
  /\ 10 * 1.08 + 6.0 * 1.0 = 16.8
  /\ (0 <=? calculate_player_score
              (mkPlayer "A" (Some "wr") None (Some 10) (Val true)) "Custom") = true.
Proof.
  destruct (calculate_player_score_spec
              (mkPlayer "A" (Some "wr") None (Some 10) (Val true)) "Custom")
    as [Hformula [_ [_ Hnonneg]]].
  split; [exact Hformula|]. split; [reflexivity|].
  apply Hnonneg. intros x Hx. injection Hx as <-. reflexivity.
Defined.

(** The bonus of the three presets and of an unknown key. *)
Example preset_reception_bonus_values :
  preset_reception_bonus "Standard" = 0.0
  /\ preset_reception_bonus "Half-PPR" = 0.5
  /\ preset_reception_bonus "PPR" = 1.0
  /\ preset_reception_bonus "ppr" = 1.0.
Proof. repeat split. Qed.

(** Scenario A and the scores of scenario C. *)
Example calculate_player_score_scenarios :
  calculate_player_score (mkPlayer "A" (Some "QB") None (Some 20) (Val true)) "PPR"
  = 20
  /\ calculate_player_score (mkPlayer "B" (Some "WR") None (Some 10) (Val true)) "PPR"
     = 16.8
  /\ calculate_player_score (mkPlayer "C" (Some "WR") None (Some 15) (Val true)) "PPR"
     = 22.200000000000003.
Proof. repeat split; vm_compute; reflexivity. Qed.

(** ** The sign rule *)

Lemma float_negative_exclusive (d : float) :
  (d <? 0) = true -> (0 <? d) = false /\ (d =? 0) = false.
Proof.
  rewrite !FloatAxioms.ltb_spec, FloatAxioms.eqb_spec. change (Prim2SF 0) with (S754_zero false).
  unfold SFltb, SFeqb.
  destruct (Prim2SF d) as [s|[|]| |[|] m e]; simpl; try discriminate; auto.
Qed.

Lemma float_not_positive_not_zero (d : float) :
  (0 <? d) = false -> (d =? 0) = false ->
  (d <? 0) = true \/ Prim2SF d = S754_nan.
Proof.
  rewrite !FloatAxioms.ltb_spec, FloatAxioms.eqb_spec. change (Prim2SF 0) with (S754_zero false).
  unfold SFltb, SFeqb.
  destruct (Prim2SF d) as [s|[|]| |[|] m e]; simpl; try discriminate; auto.
Qed.

Lemma decision_of_cases (d : float) :
  ((0 <? d) = true -> decision_of d = "Accept")
  /\ ((d =? 0) = true -> decision_of d = "Neutral")
  /\ ((d <? 0) = true -> decision_of d = "Reject")
  /\ (decision_of d = "Accept" <-> (0 <? d) = true)
  /\ (decision_of d = "Neutral" <-> (0 <? d) = false /\ (d =? 0) = true)
  /\ (decision_of d = "Reject" <-> (d <? 0) = true \/ Prim2SF d = S754_nan).
Proof.
  unfold decision_of.
  destruct (0 <? d) eqn:Epos; [|destruct (d =? 0) eqn:Ezero].
  - repeat split; try discriminate; auto.
    + intros Hz. rewrite FloatAxioms.eqb_spec in Hz. rewrite FloatAxioms.ltb_spec in Epos.
      change (Prim2SF 0) with (S754_zero false) in *. unfold SFltb, SFeqb in *.
      destruct (Prim2SF d) as [s|[|]| |[|] m e]; simpl in *; discriminate.
    + intros Hn. apply float_negative_exclusive in Hn. destruct Hn; congruence.
    + intros [_ H]. exfalso. rewrite FloatAxioms.eqb_spec in H. rewrite FloatAxioms.ltb_spec in Epos.
      change (Prim2SF 0) with (S754_zero false) in *. unfold SFltb, SFeqb in *.
      destruct (Prim2SF d) as [s|[|]| |[|] m e]; simpl in *; discriminate.
    + intros [Hn|Hnan].
      * apply float_negative_exclusive in Hn. destruct Hn; congruence.
      * rewrite FloatAxioms.ltb_spec, Hnan in Epos. discriminate.
  - repeat split; try discriminate; auto.
    + intros Hn. apply float_negative_exclusive in Hn. destruct Hn; congruence.
    + intros [Hn|Hnan].
      * apply float_negative_exclusive in Hn. destruct Hn; congruence.
      * rewrite FloatAxioms.eqb_spec, Hnan in Ezero. discriminate.
  - repeat split; try discriminate; auto.
    + intros [_ H]; discriminate.
    + intros _. now apply float_not_positive_not_zero.
Qed.

(** ** Trade simulation *)

Lemma is_empty_true {A : Type} (l : list A) : is_empty l = true <-> l = [].
Proof. destruct l; simpl; split; auto; discriminate. Qed.

Lemma missing_names_In names players n :
  In n (missing_names names players) <->
  In n names /\ forall p, In p players -> upper (name p) <> upper n.
Proof.
  unfold missing_names. rewrite filter_In.
  assert (H : existsb (String.eqb (upper n)) (map (fun p => upper (name p)) players)
              = false <-> forall p, In p players -> upper (name p) <> upper n).
  { split.
    - intros Hex p Hin Heq.
      assert (Ht : existsb (String.eqb (upper n))
                     (map (fun p => upper (name p)) players) = true).
      { apply existsb_exists. exists (upper (name p)). split.
        - now apply in_map with (f := fun p => upper (name p)).
        - apply String.eqb_eq. auto. }
      congruence.
    - intros Hall. destruct (existsb _ _) eqn:E; auto.
      apply existsb_exists in E. destruct E as [u [Hu Heq]].
      apply in_map_iff in Hu. destruct Hu as [p [<- Hin]].
      apply String.eqb_eq in Heq. exfalso. eapply Hall; eauto. }
  rewrite <- H. rewrite negb_true_iff. tauto.
Qed.

Lemma trade_analyze_Analyzed other_name my_input other_input give_names receive_names
    scoring_type analysis :
  trade_analyze other_name my_input other_input give_names receive_names scoring_type
  = Analyzed analysis ->
  my_input <> []
  /\ ~ (give_names = [] /\ receive_names = [])
  /\ missing_names give_names my_input = []
  /\ missing_names receive_names other_input = []
  /\ analysis = completed_analysis other_name my_input other_input give_names
                  receive_names scoring_type.
Proof.
  unfold trade_analyze, completed_analysis.
  destruct (is_empty my_input) eqn:Emy; [discriminate|].
  destruct (is_empty give_names && is_empty receive_names) eqn:Eboth; [discriminate|].
  destruct (team_strength_v3 my_input scoring_type) as [base_starters base_bench].
  destruct (is_empty (missing_names give_names my_input)) eqn:Eg; [|discriminate].
  destruct (is_empty (missing_names receive_names other_input)) eqn:Er; [|discriminate].
  simpl negb. cbv iota.
  destruct (team_strength_v3 _ scoring_type) as [post_starters post_bench].
  intros H. injection H as <-.
  apply is_empty_true in Eg, Er.
  repeat split; auto.
  - intros ->. discriminate.
  - intros [-> ->]. discriminate.
Qed.

Lemma trade_analyze_validated other_name my_input other_input give_names receive_names
    scoring_type :
  my_input <> [] ->
  ~ (give_names = [] /\ receive_names = []) ->
  missing_names give_names my_input = [] ->
  missing_names receive_names other_input = [] ->
  trade_analyze other_name my_input other_input give_names receive_names scoring_type
  = Analyzed (completed_analysis other_name my_input other_input give_names
                receive_names scoring_type).
Proof.
  intros Hmy Hboth Hg Hr. unfold trade_analyze, completed_analysis.
  destruct my_input as [|p my]; [contradiction|]. cbv beta iota delta [is_empty].
  assert (Eboth : is_empty give_names && is_empty receive_names = false).
  { destruct give_names, receive_names; simpl; auto. exfalso; auto. }
  unfold is_empty in Eboth. rewrite Eboth.
  destruct (team_strength_v3 (p :: my) scoring_type) as [base_starters base_bench].
  rewrite Hg, Hr. cbv beta iota. simpl negb. cbv iota.
  destruct (team_strength_v3 _ scoring_type) as [post_starters post_bench].
  reflexivity.
Qed.

Lemma missing_names_none names players :
  (forall n, In n names -> ~ absent_from players n) ->
  missing_names names players = [].
Proof.
  intros Hall. destruct (missing_names names players) as [|m l] eqn:E; auto.
  assert (Hm : In m (missing_names names players)) by (rewrite E; now left).
  apply missing_names_In in Hm. destruct Hm as [Hin Habs].
  exfalso. now apply (Hall m).
Qed.

Lemma trade_analyze_passes other_name my_input other_input give_names receive_names
    scoring_type :
  passes_validation my_input other_input give_names receive_names ->
  trade_analyze other_name my_input other_input give_names receive_names scoring_type
  = Analyzed (completed_analysis other_name my_input other_input give_names
                receive_names scoring_type).
Proof.
  intros [Hmy [Hboth [Hg Hr]]].
  apply trade_analyze_validated; auto using missing_names_none.
Qed.

(** C1. When a trade passes input validation, the simulation completes; the
    stored strengths are the starter totals of the roster before and after
    the trade (the float sums of the scores of the starters alone, the bench
    left out), [delta] is [round(after - before, 2)], and the rationale is
    Accept if [delta > 0], Neutral if [delta == 0] and Reject if
    [delta < 0]. *)
Theorem trade_delta_and_rationale
    (other_name : string) (my_input other_input : list Player)
    (give_names receive_names : list string) (scoring_type : string) :
  passes_validation my_input other_input give_names receive_names ->
  exists analysis,
    trade_analyze other_name my_input other_input give_names receive_names
      scoring_type = Analyzed analysis
    /\ let r := report analysis in
       let score := fun p => calculate_player_score p scoring_type in
       before_strength r = Py.sum (map score (filter counts_as_starter my_input))
       /\ after_strength r
          = Py.sum (map score (filter counts_as_starter (my_post analysis)))
       /\ delta r = round2 (after_strength r - before_strength r)
       /\ rationale r
          = "Before: " ++ format_2f (before_strength r) ++ ", After: "
              ++ format_2f (after_strength r) ++ ", Δ: " ++ format_2f (delta r)
              ++ " — " ++ decision_of (delta r)
       /\ ((0 <? delta r) = true -> decision_of (delta r) = "Accept")
       /\ ((delta r =? 0) = true -> decision_of (delta r) = "Neutral")
       /\ ((delta r <? 0) = true -> decision_of (delta r) = "Reject").
Proof.
  intros Hvalid. eexists. split; [now apply trade_analyze_passes|].
  cbv zeta. unfold completed_analysis. simpl.
  unfold team_strength_v3. rewrite !team_strength_v3_from. simpl fst.
  pose proof (decision_of_cases
    (round2
       (fold_left PrimFloat.add
          (map (fun p => calculate_player_score p scoring_type)
             (filter counts_as_starter
                (remove_by_names my_input give_names
                   ++ pick_from_pool other_input receive_names)%list)) 0
        - fold_left PrimFloat.add
            (map (fun p => calculate_player_score p scoring_type)
               (filter counts_as_starter my_input)) 0))) as Hd.
  unfold Py.sum. repeat split; try reflexivity; apply Hd.
Qed.

Lemma scenario_swap_passes :
  passes_validation scenario_roster scenario_pool ["bo"] ["ed"].
Proof.
  split; [discriminate|]. split; [intros [H _]; discriminate|]. split.
  - intros n [<-|[]] Habs.
    apply (Habs (mkPlayer "Bo" (Some "WR") None (Some 10) (Val true)));
      [simpl; auto|reflexivity].
  - intros n [<-|[]] Habs.
    apply (Habs (mkPlayer "Ed" (Some "WR") None (Some 15) (Val true)));
      [simpl; auto|reflexivity].
Defined.

(** Scenario C as a trade: a wide receiver swapped for a stronger one. *)
Lemma trade_delta_and_rationale_witness :
  exists analysis,
    trade_analyze "Rivals" scenario_roster scenario_pool ["bo"] ["ed"] "PPR"
    = Analyzed analysis
    /\ delta (report analysis) = 5.4
    /\ rationale (report analysis) = "Before: 36.80, After: 42.20, Δ: 5.40 — Accept".
Proof.
  destruct (trade_delta_and_rationale "Rivals" scenario_roster scenario_pool
              ["bo"] ["ed"] "PPR" scenario_swap_passes) as [analysis [Hrun H]].
  exists analysis. split; [exact Hrun|].
  rewrite (trade_analyze_passes _ _ _ _ _ _ scenario_swap_passes) in Hrun.
  injection Hrun as <-. split; vm_compute; reflexivity.
Defined.

Lemma missing_names_nonempty names players :
  (exists n, In n names /\ absent_from players n) ->
  is_empty (missing_names names players) = false.
Proof.
  intros [n Hn]. apply missing_names_In in Hn.
  destruct (missing_names names players); [contradiction|reflexivity].
Qed.

(** C3, as the code has it.  When the two name lists are both empty, or
    some give name is absent from the caller's roster, or some receive name
    is absent from the counterparty pool, the simulation ends in a flashed
    message and a redirect, with no analysis.  The message is the first that
    applies of: the empty-roster message when the roster is empty; the
    request for names when both lists are empty; the give message, naming
    exactly the missing give names in their order, when there are any (the
    missing receive names are then not named); the receive message, naming
    exactly the missing receive names. *)
Theorem trade_validation_failure
    (other_name : string) (my_input other_input : list Player)
    (give_names receive_names : list string) (scoring_type : string) :
  (exists n, In n give_names /\ absent_from my_input n)
  \/ (exists n, In n receive_names /\ absent_from other_input n)
  \/ (give_names = [] /\ receive_names = []) ->
  let outcome :=
    trade_analyze other_name my_input other_input give_names receive_names
      scoring_type in
  let missing_give := missing_names give_names my_input in
  let missing_receive := missing_names receive_names other_input in
  (exists category endpoint,
     outcome
     = Flash category
         (if is_empty my_input then empty_roster_message
          else if is_empty give_names && is_empty receive_names
          then enter_names_message
          else if negb (is_empty missing_give) then give_not_found_message missing_give
          else receive_not_found_message missing_receive)
         endpoint)
  /\ (forall analysis, outcome <> Analyzed analysis)
  /\ (forall n, In n missing_give <-> In n give_names /\ absent_from my_input n)
  /\ (forall n, In n missing_receive <->
                In n receive_names /\ absent_from other_input n).
Proof.
  intros Hbad. cbv zeta.
  assert (Hflash : exists category endpoint,
            trade_analyze other_name my_input other_input give_names receive_names
              scoring_type
            = Flash category
                (if is_empty my_input then empty_roster_message
                 else if is_empty give_names && is_empty receive_names
                 then enter_names_message
                 else if negb (is_empty (missing_names give_names my_input))
                 then give_not_found_message (missing_names give_names my_input)
                 else receive_not_found_message
                        (missing_names receive_names other_input))
                endpoint).
  { unfold trade_analyze.
    destruct (is_empty my_input) eqn:Emy; [eexists; eexists; reflexivity|].
    destruct (is_empty give_names && is_empty receive_names) eqn:Eboth;
      [eexists; eexists; reflexivity|].
    destruct (team_strength_v3 my_input scoring_type) as [base_starters base_bench].
    destruct (is_empty (missing_names give_names my_input)) eqn:Eg; simpl negb;
      cbv iota; [|eexists; eexists; reflexivity].
    destruct (is_empty (missing_names receive_names other_input)) eqn:Er; simpl negb;
      cbv iota; [|eexists; eexists; reflexivity].
    exfalso. destruct Hbad as [Hg|[Hr|[-> ->]]].
    - apply missing_names_nonempty in Hg. congruence.
    - apply missing_names_nonempty in Hr. congruence.
    - discriminate. }
  split; [exact Hflash|]. split; [|split].
  - intros analysis. destruct Hflash as [category [endpoint ->]]. discriminate.
  - intros n. apply missing_names_In.
  - intros n. apply missing_names_In.
Qed.

(** Scenario D: the give name is not in the roster. *)
Lemma trade_validation_failure_witness :
  trade_analyze "Rivals" scenario_roster scenario_pool ["Zed"; "bo"; "Yan"] ["ed"] "PPR"
  = Flash "error" "These 'Give' players were not found in your roster: Zed, Yan."
      "trade_page".
Proof.
  assert (Hbad : (exists n, In n ["Zed"; "bo"; "Yan"] /\ absent_from scenario_roster n)
                 \/ (exists n, In n ["ed"] /\ absent_from scenario_pool n)
                 \/ (["Zed"; "bo"; "Yan"] = [] /\ ["ed"] = [])).
  { left. exists "Zed". split; [simpl; auto|].
    intros p [<-|[<-|[<-|[]]]]; vm_compute; discriminate. }
  destruct (trade_validation_failure "Rivals" scenario_roster scenario_pool
              ["Zed"; "bo"; "Yan"] ["ed"] "PPR" Hbad) as [[category [endpoint Hout]] _].
  cbv zeta in Hout. rewrite Hout. vm_compute in Hout.
  injection Hout as <- <-. reflexivity.
Defined.

(** C3, as stated, fails when a give name and a receive name are both
    missing: the message names the missing give name alone. *)
Lemma trade_failure_names_give_only :
  absent_from scenario_roster "Zed"
  /\ absent_from scenario_pool "Yan"
  /\ trade_analyze "Rivals" scenario_roster scenario_pool ["Zed"] ["Yan"] "PPR"
     = Flash "error" "These 'Give' players were not found in your roster: Zed."
         "trade_page"
  /\ String.index 0 "Yan" "These 'Give' players were not found in your roster: Zed."
     = None.
Proof.
  split; [|split; [|split]].
  - intros p [<-|[<-|[<-|[]]]]; vm_compute; discriminate.
  - intros p [<-|[<-|[<-|[]]]]; vm_compute; discriminate.
  - vm_compute. reflexivity.
  - vm_compute. reflexivity.
Qed.

(** ** The post roster *)

Lemma find_first_match pool n p :
  find (fun i => String.eqb (upper (name i)) (upper n)) pool = Some p ->
  first_match pool n p.
Proof.
  induction pool as [|q pool IH]; simpl; [discriminate|].
  destruct (String.eqb (upper (name q)) (upper n)) eqn:E.
  - intros H. injection H as <-. exists [], pool. apply String.eqb_eq in E.
    repeat split; auto. intros p [].
  - intros H. destruct (IH H) as [before [after [-> [Hname Habs]]]].
    exists (q :: before), after. repeat split; auto.
    intros r [<-|Hr]; [now apply String.eqb_neq|now apply Habs].
Qed.

Lemma find_absent pool n :
  find (fun i => String.eqb (upper (name i)) (upper n)) pool = None ->
  absent_from pool n.
Proof.
  intros H p Hin. apply find_none with (x := p) in H; auto.
  now apply String.eqb_neq.
Qed.

Lemma pick_from_pool_first_matches pool names :
  missing_names names pool = [] ->
  Forall2 (first_match pool) names (pick_from_pool pool names).
Proof.
  induction names as [|n names IH]; intros Hmiss; [constructor|].
  assert (Hn : ~ absent_from pool n).
  { intros Habs. assert (Hin : In n (missing_names (n :: names) pool)).
    { apply missing_names_In. split; [now left|exact Habs]. }
    rewrite Hmiss in Hin. contradiction. }
  assert (Hrest : missing_names names pool = []).
  { destruct (missing_names names pool) as [|m l] eqn:E; auto.
    assert (Hin : In m (missing_names (n :: names) pool)).
    { apply missing_names_In.
      assert (Hm : In m (missing_names names pool)) by (rewrite E; now left).
      apply missing_names_In in Hm. destruct Hm. split; [now right|auto]. }
    rewrite Hmiss in Hin. contradiction. }
  unfold pick_from_pool. simpl.
  destruct (find _ pool) as [p|] eqn:E.
  - simpl. constructor; [now apply find_first_match|now apply IH].
  - exfalso. apply Hn. now apply find_absent.
Qed.





Example trade_post_roster_example :
  map name
    (my_post (completed_analysis "Rivals" scenario_roster scenario_pool
                ["AL"] ["ed"; "fy"] "PPR"))
  = ["Bo"; "Cy"; "Ed"; "Fy"].
Proof. reflexivity. Qed.

(** ** Suggestions *)

Lemma string_append_assoc (a b c : string) : (a ++ b) ++ c = a ++ (b ++ c).
Proof. induction a as [|x a IH]; simpl; [reflexivity|now rewrite IH]. Qed.

Lemma generate_unfold before_players after_players scoring_type :
  _generate_trade_suggestions before_players after_players scoring_type
  = let before_starter := fst (team_strength_v3 before_players scoring_type) in
    let after_starter := fst (team_strength_v3 after_players scoring_type) in
    let before_bd := position_breakdown_v3 before_players scoring_type in
    let after_bd := position_breakdown_v3 after_players scoring_type in
    let delta_total := round2 (after_starter - before_starter) in
    mkSuggestions
      (starter_optimization_of (by_position scoring_type after_players))
      (positional_improvement_of before_bd after_bd)
      (depth_and_bench_of after_bd)
      (positional_need_warnings_of after_players)
      (unfavorable_trade_recos_of delta_total before_bd after_bd)
      (neutral_trade_suggestions_of delta_total before_bd after_bd)
      (final_summary_of delta_total before_starter after_starter).
Proof.
  unfold _generate_trade_suggestions.
  destruct (team_strength_v3 before_players scoring_type) as [bs bb].
  destruct (team_strength_v3 after_players scoring_type) as [s b].
  reflexivity.
Qed.

(** The shape of the unfavorable-trade list: empty unless the rounded total
    starter delta is negative; otherwise at most three recovery messages,
    for the first three of the negative drops of the positions of the after
    breakdown in ascending order, and then the counter-offer message. *)
Lemma unfavorable_trade_recos_shape before_players after_players scoring_type :
  let delta_total :=
    round2 (fst (team_strength_v3 after_players scoring_type)
            - fst (team_strength_v3 before_players scoring_type)) in
  let recos :=
    unfavorable_trade_recos
      (_generate_trade_suggestions before_players after_players scoring_type) in
  (recos <> [] <-> (delta_total <? 0) = true)
  /\ ((delta_total <? 0) = true ->
      exists drops,
        drops
        = firstn 3
            (sorted snd_lt
               (starter_drops (position_breakdown_v3 before_players scoring_type)
                  (position_breakdown_v3 after_players scoring_type)))
        /\ (List.length drops <= 3)%nat
        /\ recos = (map recover_message drops ++ [counter_offer_message])%list).
Proof.
  cbv zeta. rewrite generate_unfold. cbv zeta. simpl unfavorable_trade_recos.
  unfold unfavorable_trade_recos_of.
  destruct (round2 _ <? 0).
  - split.
    + split; auto. intros _ H. apply app_eq_nil in H. destruct H; discriminate.
    + intros _. eexists. split; [reflexivity|]. split; [|reflexivity].
      apply firstn_le_length.
  - split; [|discriminate]. split; [intros H; now contradiction H|discriminate].
Qed.

(** C7, on the code.  Giving away the only quarterback takes 20 points off
    the starters at QB and nothing elsewhere: the list of unfavorable-trade
    recommendations holds the counter-offer message alone, with no recovery
    message for QB, while the positional-improvement list of the same call
    reports the drop at QB. *)
Theorem unfavorable_recos_skip_vacated_position :
  let outcome :=
    trade_analyze "Rivals" scenario_roster scenario_pool ["al"] [] "PPR" in
  exists analysis,
    outcome = Analyzed analysis
    /\ map name (my_post analysis) = ["Bo"; "Cy"]
    /\ delta (report analysis) = (-20)%float
    /\ unfavorable_trade_recos (suggestions analysis) = [counter_offer_message]
    /\ positional_improvement (suggestions analysis)
       = ["QB: starter strength decreased by -20.00."]
    /\ final_summary (suggestions analysis)
       = ["Decision: Reject — starter Δ -20.00 (before 36.80 → after 16.80)."].
Proof.
  cbv zeta. eexists. split; [vm_compute; reflexivity|].
  repeat split; vm_compute; reflexivity.
Qed.

(** C8, as the code has it.  The final summary is exactly one string: the
    stated one followed by a full stop, with the decision given by the sign
    rule of the trade simulator; for an analysed trade the decision and the
    figures are those of the stored report. *)
Theorem final_summary_spec (before_players after_players : list Player)
    (scoring_type : string) :
  let before_starter := fst (team_strength_v3 before_players scoring_type) in
  let after_starter := fst (team_strength_v3 after_players scoring_type) in
  let delta_total := round2 (after_starter - before_starter) in
  final_summary (_generate_trade_suggestions before_players after_players scoring_type)
  = [stated_final_summary (decision_of delta_total) delta_total before_starter
       after_starter ++ "."]
  /\ (decision_of delta_total = "Accept" <-> (0 <? delta_total) = true)
  /\ (decision_of delta_total = "Neutral" <->
        (0 <? delta_total) = false /\ (delta_total =? 0) = true)
  /\ (decision_of delta_total = "Reject" <->
        (delta_total <? 0) = true \/ Prim2SF delta_total = S754_nan)
  /\ (forall other_name other_input give_names receive_names analysis,
        trade_analyze other_name before_players other_input give_names receive_names
          scoring_type = Analyzed analysis ->
        final_summary (suggestions analysis)
        = [stated_final_summary (decision_of (delta (report analysis)))
             (delta (report analysis)) (before_strength (report analysis))
             (after_strength (report analysis)) ++ "."]).
Proof.
  cbv zeta.
  assert (Hsum : forall b a,
            final_summary (_generate_trade_suggestions b a scoring_type)
            = [stated_final_summary
                 (decision_of (round2 (fst (team_strength_v3 a scoring_type)
                                       - fst (team_strength_v3 b scoring_type))))
                 (round2 (fst (team_strength_v3 a scoring_type)
                          - fst (team_strength_v3 b scoring_type)))
                 (fst (team_strength_v3 b scoring_type))
                 (fst (team_strength_v3 a scoring_type)) ++ "."]).
  { intros b a. rewrite generate_unfold. cbv zeta. simpl final_summary.
    unfold final_summary_of, stated_final_summary. f_equal.
    rewrite !string_append_assoc. reflexivity. }
  split; [apply Hsum|].
  pose proof (decision_of_cases
    (round2 (fst (team_strength_v3 after_players scoring_type)
             - fst (team_strength_v3 before_players scoring_type)))) as Hd.
  repeat (split; [apply Hd|]).
  intros other_name other_input give_names receive_names analysis H.
  apply trade_analyze_Analyzed in H. destruct H as [_ [_ [_ [_ ->]]]].
  unfold completed_analysis. simpl. apply Hsum.
Qed.

(** The summary of scenario C's trade. *)
Lemma final_summary_spec_witness :
  final_summary
    (suggestions (completed_analysis "Rivals" scenario_roster scenario_pool
                    ["bo"] ["ed"] "PPR"))
  = ["Decision: Accept — starter Δ +5.40 (before 36.80 → after 42.20)."].
Proof.
  pose proof (final_summary_spec scenario_roster scenario_roster "PPR") as H.
  cbv zeta in H. destruct H as [_ [_ [_ [_ H]]]].
  pose proof (H "Rivals" scenario_pool ["bo"] ["ed"]
                (completed_analysis "Rivals" scenario_roster scenario_pool
                   ["bo"] ["ed"] "PPR") eq_refl) as H'.
  etransitivity; [exact H'|]. vm_compute. reflexivity.
Defined.

(** C8, as stated, fails: the string of the code ends in a full stop, which
    the stated string does not have. *)
Lemma final_summary_has_full_stop :
  let before_starter := fst (team_strength_v3 scenario_roster "PPR") in
  let after_players :=
    my_post (completed_analysis "Rivals" scenario_roster scenario_pool
               ["bo"] ["ed"] "PPR") in
  let after_starter := fst (team_strength_v3 after_players "PPR") in
  let delta_total := round2 (after_starter - before_starter) in
  final_summary (_generate_trade_suggestions scenario_roster after_players "PPR")
  <> [stated_final_summary (decision_of delta_total) delta_total before_starter
        after_starter].
Proof.
  cbv zeta. intros H.
  assert (Hlen : map String.length
                   (final_summary
                      (_generate_trade_suggestions scenario_roster
                         (my_post (completed_analysis "Rivals" scenario_roster
                                     scenario_pool ["bo"] ["ed"] "PPR")) "PPR"))
                 = [69%nat]) by (vm_compute; reflexivity).
  rewrite H in Hlen. vm_compute in Hlen. discriminate Hlen.
Qed.

(** * Further properties of the code *)

(** ** Starter limits and the roster routes *)

Lemma upper_ascii_idempotent c : upper_ascii (upper_ascii c) = upper_ascii c.
Proof.
  destruct c as [b0 b1 b2 b3 b4 b5 b6 b7].
  destruct b0, b1, b2, b3, b4, b5, b6, b7; reflexivity.
Qed.

Lemma upper_idempotent s : upper (upper s) = upper s.
Proof.
  induction s as [|c s IH]; simpl; [reflexivity|].
  now rewrite upper_ascii_idempotent, IH.
Qed.

Lemma upper_empty s : upper s = "" <-> s = "".
Proof. destruct s; simpl; split; auto; discriminate. Qed.

Lemma starters_at_app l1 l2 pos :
  starters_at (l1 ++ l2) pos = (starters_at l1 pos + starters_at l2 pos)%Z.
Proof.
  induction l1 as [|p l1 IH]; simpl app.
  - change (starters_at [] pos) with 0%Z. lia.
  - rewrite !starters_at_cons, IH. lia.
Qed.

Lemma lineup_within_limits players :
  valid (validate_lineup players) = true <->
  forall pos, (starters_at players pos <= limit_of pos)%Z.
Proof.
  unfold validate_lineup. simpl. split.
  - intros Hvalid pos.
    destruct (Z.le_gt_cases (starters_at players pos) (limit_of pos)) as [|Hgt]; auto.
    exfalso. pose proof (limit_of_positive pos).
    assert (Hin : In (Violation.mk pos (starters_at players pos) (limit_of pos)
                        (starters_at players pos - limit_of pos))
                     (check_limits (count_starters players))).
    { apply check_limits_In. exists pos, (starters_at players pos).
      split; [apply count_starters_In; split; [reflexivity|lia]|].
      split; [lia|reflexivity]. }
    destruct (check_limits (count_starters players)); [contradiction|discriminate].
  - intros Hall.
    destruct (check_limits (count_starters players)) as [|v l] eqn:E; [reflexivity|].
    exfalso.
    assert (Hin : In v (check_limits (count_starters players))) by (rewrite E; now left).
    apply check_limits_In in Hin. destruct Hin as [pos [c [Hin [Hlt _]]]].
    apply count_starters_In in Hin. destruct Hin as [-> _].
    specialize (Hall pos). lia.
Qed.

(** [can_add_starter] compares the number of starters at the upper-cased
    position with the limit of that position. *)
Lemma can_add_starter_counts (players : list Player) (new_position : string) :
  can_add_starter players new_position
  = (starters_at players (upper new_position) <? limit_of (upper new_position))%Z.
Proof.
  unfold can_add_starter, validate_lineup, count_starters, limit_of. simpl.
  rewrite count_fold_get. unfold dict_get_default at 1. simpl. reflexivity.
Qed.

(** For a player of a named position [can_add_starter] answers what
    [validate_lineup] would say once the player is added as a starter: on a
    valid lineup it is true exactly when the lineup with the new starter is
    still valid. *)
Theorem can_add_starter_agrees_with_validation
    (players : list Player) (new_position : string) (p : Player) :
  valid (validate_lineup players) = true ->
  counts_as_starter p = true ->
  position_of p = upper new_position ->
  can_add_starter players new_position = valid (validate_lineup (players ++ [p])%list).
Proof.
  intros Hvalid Hst Hpos.
  rewrite can_add_starter_counts. apply Bool.eq_true_iff_eq.
  rewrite Z.ltb_lt, lineup_within_limits.
  rewrite lineup_within_limits in Hvalid.
  assert (Hone : forall pos,
            starters_at [p] pos
            = if String.eqb (upper new_position) pos then 1%Z else 0%Z).
  { intros pos. rewrite starters_at_cons, Hst, Hpos. cbn [andb].
    change (starters_at [] pos) with 0%Z.
    destruct (String.eqb (upper new_position) pos); reflexivity. }
  split.
  - intros Hlt pos. rewrite starters_at_app, Hone.
    destruct (String.eqb_spec (upper new_position) pos) as [<-|_].
    + lia.
    + specialize (Hvalid pos). lia.
  - intros Hall. specialize (Hall (upper new_position)).
    rewrite starters_at_app, Hone, String.eqb_refl in Hall. lia.
Qed.

(** A second wide receiver fits beside the one of the scenario roster. *)
Lemma can_add_starter_agrees_with_validation_witness :
  can_add_starter scenario_roster "wr"
  = valid (validate_lineup
             (scenario_roster ++ [mkPlayer "Ed" (Some "WR") None (Some 15) (Val true)])%list).
Proof.
  apply (can_add_starter_agrees_with_validation scenario_roster "wr"
           (mkPlayer "Ed" (Some "WR") None (Some 15) (Val true)));
    reflexivity.
Defined.


Lemma row_dict_position p :
  row_position p <> "" -> position_of (row_dict p) = upper (row_position p).
Proof.
  intros H. unfold position_of, row_dict. simpl.
  destruct (String.eqb_spec (row_position p) ""); [contradiction|reflexivity].
Qed.

Lemma starters_at_row players p pos :
  row_position p <> "" ->
  starters_at (players ++ [row_dict p]) pos
  = (starters_at players pos
     + (if row_is_starter p && String.eqb (upper (row_position p)) pos
        then 1 else 0))%Z.
Proof.
  intros H. rewrite starters_at_app. f_equal.
  unfold starters_at. simpl.
  rewrite (row_dict_position p H). unfold counts_as_starter. simpl.
  now destruct (row_is_starter p && String.eqb (upper (row_position p)) pos).
Qed.

(** A row appended as a bench player, or as a starter below the limit of
    its position, keeps a lineup within the limits. *)
Lemma with_row_keeps_limits db name position team pid projection is_starter :
  position <> "" ->
  upper position = position ->
  (is_starter = true -> can_add_starter (map row_dict (rows db)) position = true) ->
  (forall pos, (starters_at (map row_dict (rows db)) pos <= limit_of pos)%Z) ->
  forall pos,
    (starters_at
       (map row_dict (rows (with_row db name position team pid projection is_starter)))
       pos <= limit_of pos)%Z.
Proof.
  intros Hne Hup Hcan Hall pos. unfold with_row. simpl rows. rewrite map_app.
  simpl map.
  rewrite (starters_at_row (map row_dict (rows db))
             (mkRow (next_id db) name position team pid projection is_starter) pos Hne).
  simpl. rewrite Hup. specialize (Hall pos).
  destruct is_starter; simpl; [|lia].
  destruct (String.eqb_spec position pos) as [->|]; [|lia].
  specialize (Hcan eq_refl). rewrite can_add_starter_counts, Hup in Hcan.
  apply Z.ltb_lt in Hcan. lia.
Qed.

Lemma flip_starter_positions player_id l :
  Forall (fun p => row_position p <> "") l ->
  Forall (fun p => row_position p <> "") (flip_starter player_id l).
Proof.
  induction 1 as [|p l Hp Hl IH]; simpl; [constructor|].
  destruct (row_id p =? player_id)%Z; constructor; auto.
Qed.

Lemma flip_starter_counts player_id l : forall player pos,
  Forall (fun p => row_position p <> "") l ->
  find (fun p => (row_id p =? player_id)%Z) l = Some player ->
  starters_at (map row_dict (flip_starter player_id l)) pos
  = (starters_at (map row_dict l) pos
     + (if String.eqb (upper (row_position player)) pos
        then (if row_is_starter player then -1 else 1) else 0))%Z.
Proof.
  induction l as [|p l IH]; intros player pos Hpos Hfind; simpl in *; [discriminate|].
  inversion Hpos as [|? ? Hp Hl]; subst.
  destruct (row_id p =? player_id)%Z.
  - injection Hfind as <-. simpl. rewrite !starters_at_cons.
    unfold counts_as_starter. simpl.
    rewrite (row_dict_position p Hp).
    assert (Hflip : position_of
                      (row_dict (mkRow (row_id p) (row_name p) (row_position p)
                                   (row_team p) (row_player_id p) (row_projection p)
                                   (negb (row_is_starter p))))
                    = upper (row_position p)).
    { unfold position_of, row_dict. simpl.
      destruct (String.eqb_spec (row_position p) ""); [contradiction|reflexivity]. }
    rewrite Hflip.
    destruct (row_is_starter p), (String.eqb (upper (row_position p)) pos);
      cbn [negb andb]; lia.
  - simpl. rewrite !starters_at_cons, (IH player pos Hl Hfind). lia.
Qed.

(** One request keeps the two invariants of the table. *)
Lemma handle_keeps_lineup db req :
  lineup_valid db -> positions_named db -> names_position req ->
  lineup_valid (handle db req) /\ positions_named (handle db req).
Proof.
  unfold lineup_valid, positions_named. intros Hvalid Hnamed Hreq.
  rewrite lineup_within_limits in *.
  destruct req as [n p t st proj|pid n p t target|pid|]; simpl.
  - unfold add_player.
    destruct (negb (String.eqb (strip n) "")
              && negb (String.eqb (upper (strip p)) "")) eqn:Eguard; simpl; auto.
    apply andb_true_iff in Eguard. destruct Eguard as [_ Hp].
    apply negb_true_iff, String.eqb_neq in Hp.
    unfold insert_row. destruct (PrimFloat.is_nan proj); simpl; auto. split.
    + apply with_row_keeps_limits; auto using upper_idempotent.
      destruct (String.eqb (lower st) "true"); simpl; [|discriminate].
      destruct (can_add_starter (map row_dict (rows db)) (upper (strip p)));
        simpl; auto.
    + apply Forall_app. split; auto.
  - destruct Hreq as [s [-> Hs]]. unfold add_from_search.
    assert (Hp : upper s <> "") by (rewrite upper_empty; exact Hs).
    destruct (String.eqb target "starter"
              && negb (can_add_starter (map row_dict (rows db)) (upper s))) eqn:Eref;
      simpl; auto.
    split.
    + apply with_row_keeps_limits; auto using upper_idempotent.
      intros Hst. rewrite Hst in Eref. simpl in Eref.
      now apply negb_false_iff in Eref.
    + apply Forall_app. split; auto.
  - unfold toggle_player_status.
    destruct (find (fun r => (row_id r =? pid)%Z) (rows db)) as [player|] eqn:Efind;
      simpl; auto.
    destruct (negb (row_is_starter player)
              && negb (can_add_starter (map row_dict (rows db)) (row_position player)))
      eqn:Eref; simpl; auto.
    split; [|now apply flip_starter_positions].
    intros pos. rewrite (flip_starter_counts pid (rows db) player pos Hnamed Efind).
    specialize (Hvalid pos).
    destruct (String.eqb_spec (upper (row_position player)) pos) as [<-|]; [|lia].
    destruct (row_is_starter player); simpl in Eref; [lia|].
    apply negb_false_iff in Eref. rewrite can_add_starter_counts in Eref.
    apply Z.ltb_lt in Eref. lia.
  - split; [|constructor]. intros pos. unfold starters_at. simpl.
    pose proof (limit_of_positive pos). lia.
Qed.

(** A valid lineup stays valid under every sequence of [add_player],
    [add_from_search], [toggle_player_status] and [clear_players] requests,
    provided the stored rows and the search results added name a position;
    in particular every roster built from an empty table is valid. *)
Theorem roster_requests_keep_lineup_valid (db : Roster) (requests : list Request) :
  lineup_valid db -> positions_named db -> Forall names_position requests ->
  lineup_valid (fold_left handle requests db)
  /\ positions_named (fold_left handle requests db).
Proof.
  revert db. induction requests as [|req requests IH]; intros db Hv Hn Hreqs; simpl.
  - auto.
  - inversion Hreqs as [|? ? Hreq Hrest]; subst.
    destruct (handle_keeps_lineup db req Hv Hn Hreq) as [Hv' Hn'].
    now apply IH.
Qed.

(** Three quarterbacks asked in as starters, then a toggle of the second. *)
Lemma roster_requests_keep_lineup_valid_witness :
  lineup_valid
    (fold_left handle
       [ AddPlayer " Al " "qb" "kc" "true" 20;
         AddPlayer "Bo" "QB" "" "TRUE" 18;
         AddFromSearch (Some "4034") "Cy" (Some "qb") None "starter";
         Toggle 2 ]
       (mkRoster 1 [])).
Proof.
  apply (roster_requests_keep_lineup_valid (mkRoster 1 [])).
  - reflexivity.
  - constructor.
  - repeat constructor. exists "qb". split; [reflexivity|discriminate].
Defined.

Lemma position_of_nonempty p : position_of p <> "".
Proof.
  unfold position_of. rewrite upper_empty.
  destruct (position p) as [s|]; [|discriminate].
  destruct (String.eqb_spec s ""); [discriminate|assumption].
Qed.

Lemma starters_at_empty_position players : starters_at players "" = 0%Z.
Proof.
  induction players as [|p players IH]; [reflexivity|].
  rewrite starters_at_cons, IH.
  destruct (String.eqb_spec (position_of p) "") as [H|_].
  - now apply position_of_nonempty in H.
  - now rewrite andb_false_r.
Qed.

(** A search result without a position is never refused as a starter:
    [can_add_starter] looks the empty position up as it is, where no starter
    is ever counted, while [validate_lineup] counts the stored row under
    "UNK".  The row is appended as a starter whatever the table holds, and
    the lineup is invalid afterwards as soon as it already had a starter
    counted under "UNK". *)
Theorem search_result_without_position_passes_limit
    (db : Roster) (player_id : option string) (full_name : string)
    (position_field team_field : option string) :
  position_field = None \/ position_field = Some "" ->
  can_add_starter (map row_dict (rows db)) "" = true
  /\ rows (fst (add_from_search db player_id full_name position_field team_field
                  "starter"))
     = (rows db
          ++ [mkRow (next_id db) full_name ""
                (upper (match team_field with Some s => s | None => "" end))
                player_id 0.0 true])%list
  /\ ((1 <= starters_at (map row_dict (rows db)) "UNK")%Z ->
      ~ lineup_valid
          (fst (add_from_search db player_id full_name position_field team_field
                  "starter"))).
Proof.
  intros Hfield.
  assert (Hcan : can_add_starter (map row_dict (rows db)) "" = true).
  { rewrite can_add_starter_counts. simpl upper.
    rewrite starters_at_empty_position. reflexivity. }
  assert (Hrun : add_from_search db player_id full_name position_field team_field
                   "starter"
                 = (with_row db full_name ""
                      (upper (match team_field with Some s => s | None => "" end))
                      player_id 0.0 true,
                    Flashed
                      [("success",
                        "Added " ++ full_name
                          ++ " from live search to your roster as starter.")])).
  { unfold add_from_search.
    destruct Hfield as [-> | ->]; simpl upper at 1 2 3; rewrite Hcan; reflexivity. }
  rewrite Hrun. simpl fst. split; [exact Hcan|]. split; [reflexivity|].
  intros Hunk Hvalid. unfold lineup_valid in Hvalid.
  rewrite lineup_within_limits in Hvalid. specialize (Hvalid "UNK").
  unfold with_row in Hvalid. simpl rows in Hvalid. rewrite map_app in Hvalid.
  rewrite starters_at_app in Hvalid.
  change (starters_at (map row_dict [_]) "UNK") with 1%Z in Hvalid.
  change (limit_of "UNK") with 1%Z in Hvalid. lia.
Qed.

(** A second search result without a position, after a first one. *)
Lemma search_result_without_position_passes_limit_witness :
  ~ lineup_valid
      (fst (add_from_search
              (fst (add_from_search (mkRoster 1 []) None "Al" None None "starter"))
              None "Bo" (Some "") (Some "kc") "starter")).
Proof.
  apply (search_result_without_position_passes_limit
           (fst (add_from_search (mkRoster 1 []) None "Al" None None "starter"))
           None "Bo" (Some "") (Some "kc")).
  - right. reflexivity.
  - vm_compute. discriminate.
Defined.

(** At the limit of a position the two routes differ: [add_player] goes on
    to store the player as a bench player, and [add_from_search] stores
    nothing.  The insert of [add_player] succeeds unless the projection is
    NaN, which the table refuses: the route then raises and nothing is
    stored. *)
Theorem limit_reached_demotes_or_refuses
    (db : Roster) (name_field position_field team_field is_starter_field : string)
    (projection : float) (player_id : option string) (full_name : string)
    (search_team : option string) :
  let position := upper (strip position_field) in
  strip name_field <> "" ->
  position <> "" ->
  (limit_of position <= starters_at (map row_dict (rows db)) position)%Z ->
  (PrimFloat.is_nan projection = false ->
     rows (fst (add_player db name_field position_field team_field is_starter_field
                  projection))
     = (rows db
          ++ [mkRow (next_id db) (strip name_field) position
                (upper (strip team_field)) None projection false])%list)
  /\ (PrimFloat.is_nan projection = true ->
        add_player db name_field position_field team_field is_starter_field
          projection
        = (db, IntegrityError))
  /\ fst (add_from_search db player_id full_name (Some position) search_team "starter")
     = db.
Proof.
  cbv zeta. intros Hname Hpos Hfull.
  assert (Hcan : can_add_starter (map row_dict (rows db)) (upper (strip position_field))
                 = false).
  { rewrite can_add_starter_counts, upper_idempotent. apply Z.ltb_ge. exact Hfull. }
  apply String.eqb_neq in Hname, Hpos.
  split; [|split].
  - intros Hnum. unfold add_player, insert_row.
    rewrite Hname, Hpos, Hcan, Hnum. simpl.
    now destruct (String.eqb (lower is_starter_field) "true").
  - intros Hnan. unfold add_player, insert_row.
    rewrite Hname, Hpos, Hnan. reflexivity.
  - unfold add_from_search. rewrite upper_idempotent, Hcan. reflexivity.
Qed.

(** A second quarterback, by the form with a projection of 18 and with
    "nan", and by the search. *)
Lemma limit_reached_demotes_or_refuses_witness :
  let db := fst (add_player (mkRoster 1 []) "Al" "qb" "kc" "true" 20) in
  map row_is_starter (rows (fst (add_player db "Bo" " Qb " "" "true" 18)))
  = [true; false]
  /\ add_player db "Bo" " Qb " "" "true" nan = (db, IntegrityError)
  /\ fst (add_from_search db None "Bo" (Some "QB") None "starter") = db.
Proof.
  cbv zeta.
  destruct (limit_reached_demotes_or_refuses
              (fst (add_player (mkRoster 1 []) "Al" "qb" "kc" "true" 20))
              "Bo" " Qb " "" "true" 18 None "Bo" None) as [Hadd [_ Hsearch]].
  - discriminate.
  - discriminate.
  - vm_compute. discriminate.
  - destruct (limit_reached_demotes_or_refuses
                (fst (add_player (mkRoster 1 []) "Al" "qb" "kc" "true" 20))
                "Bo" " Qb " "" "true" nan None "Bo" None) as [_ [Hnan _]].
    + discriminate.
    + discriminate.
    + vm_compute. discriminate.
    + split; [rewrite (Hadd eq_refl); reflexivity|].
      split; [exact (Hnan eq_refl)|exact Hsearch].
Defined.

(** ** The mock projection *)

Lemma variation_in_values hash name :
  In (_stable_variation hash name) variation_values.
Proof.
  unfold _stable_variation, variation_values.
  destruct (String.eqb name ""); [now left|right].
  assert (Hr : (0 <= Z.abs (hash name) mod 1000 < 1000)%Z)
    by (apply Z.mod_pos_bound; lia).
  apply in_map_iff. exists (Z.to_nat (Z.abs (hash name) mod 1000)). split.
  - unfold variation_of_residue. now rewrite Z2Nat.id by lia.
  - apply in_seq. lia.
Qed.

(** [_stable_variation] yields [0.0] for the empty name and otherwise a
    value between [-1.0] and [1.0], whatever the hash of the name. *)
Theorem stable_variation_range (hash : string -> Z) (name : string) :
  _stable_variation hash "" = 0.0
  /\ (-1.0 <=? _stable_variation hash name) = true
  /\ (_stable_variation hash name <=? 1.0) = true.
Proof.
  split; [reflexivity|].
  assert (Hall : forallb (fun v => (-1.0 <=? v) && (v <=? 1.0)) variation_values = true)
    by (vm_compute; reflexivity).
  rewrite forallb_forall in Hall.
  specialize (Hall _ (variation_in_values hash name)).
  now apply andb_true_iff in Hall.
Qed.

Lemma base_bonus_in_values pos scoring_type :
  In (dict_get_default pos 10.0 POSITION_BASELINES,
      get_avg_receptions_by_position pos
        * reception_bonus
            (dict_get_default scoring_type
               (dict_get_default "PPR" (mkPreset 1.0) SCORING_PRESETS) SCORING_PRESETS)
        * 0.15)
     base_bonus_values.
Proof.
  assert (Hrate : In (reception_bonus
                        (dict_get_default scoring_type
                           (dict_get_default "PPR" (mkPreset 1.0) SCORING_PRESETS)
                           SCORING_PRESETS))
                     [0.0; 0.5; 1.0]).
  { unfold dict_get_default at 1.
    destruct (dict_get scoring_type SCORING_PRESETS) as [b|] eqn:Eb.
    - apply dict_get_Some_In in Eb. unfold SCORING_PRESETS in Eb. simpl in Eb.
      each_entry Eb ltac:(simpl; auto).
    - simpl. auto. }
  revert Hrate.
  generalize (reception_bonus
                (dict_get_default scoring_type
                   (dict_get_default "PPR" (mkPreset 1.0) SCORING_PRESETS)
                   SCORING_PRESETS)).
  intros rate Hrate.
  destruct (in_dec string_dec pos (dict_keys POSITION_BASELINES)) as [Hin|Hout].
  - simpl in Hin, Hrate.
    repeat (destruct Hin as [<-|Hin];
            [destruct Hrate as [<-|[<-|[<-|[]]]];
             vm_compute; repeat (first [left; reflexivity | right])|]).
    contradiction.
  - unfold get_avg_receptions_by_position, dict_get_default.
    rewrite (proj2 (dict_get_None pos POSITION_BASELINES) Hout).
    match goal with
    | |- context [dict_get pos ?t] =>
        rewrite (proj2 (dict_get_None pos t) Hout)
    end.
    simpl in Hrate. destruct Hrate as [<-|[<-|[<-|[]]]];
      vm_compute; repeat (first [left; reflexivity | right]).
Qed.

Lemma team_adj_in_values team :
  In (dict_get_default team 0.0 TEAM_ADJUSTMENTS) team_values.
Proof.
  unfold dict_get_default.
  destruct (dict_get team TEAM_ADJUSTMENTS) as [t|] eqn:E.
  - apply dict_get_Some_In in E. unfold TEAM_ADJUSTMENTS in E. simpl in E.
    each_entry E ltac:(simpl; auto 10).
  - simpl. auto 10.
Qed.

(** The number of binary digits of a mantissa brackets it. *)
Lemma digits2_pos_bounds m :
  (2 ^ (Zpos (digits2_pos m) - 1) <= Zpos m < 2 ^ Zpos (digits2_pos m))%Z.
Proof.
  induction m as [m IH|m IH|]; simpl digits2_pos.
  - rewrite Pos2Z.inj_succ.
    replace (Z.succ (Zpos (digits2_pos m)) - 1)%Z
      with (Z.succ (Zpos (digits2_pos m) - 1)) by lia.
    rewrite !Z.pow_succ_r by lia. lia.
  - rewrite Pos2Z.inj_succ.
    replace (Z.succ (Zpos (digits2_pos m)) - 1)%Z
      with (Z.succ (Zpos (digits2_pos m) - 1)) by lia.
    rewrite !Z.pow_succ_r by lia. lia.
  - simpl. lia.
Qed.

(** Rounding a quotient to the nearest integer is monotone. *)
Lemma div_half_even_mono n1 n2 d :
  (0 < d)%Z -> (n1 <= n2)%Z -> (div_half_even n1 d <= div_half_even n2 d)%Z.
Proof.
  intros Hd Hle. unfold div_half_even.
  pose proof (Z.div_mod n1 d ltac:(lia)) as E1.
  pose proof (Z.div_mod n2 d ltac:(lia)) as E2.
  pose proof (Z.mod_pos_bound n1 d Hd) as B1.
  pose proof (Z.mod_pos_bound n2 d Hd) as B2.
  pose proof (Z.div_le_mono n1 n2 d Hd Hle) as Hq.
  assert (Hcases : (n1 / d = n2 / d /\ n1 mod d <= n2 mod d)%Z
                   \/ (n1 / d + 1 <= n2 / d)%Z) by nia.
  destruct (Z.compare_spec (2 * (n1 mod d)) d);
    destruct (Z.compare_spec (2 * (n2 mod d)) d);
    destruct Hcases as [[Hq' Hr]|Hlt];
    try rewrite Hq';
    repeat match goal with |- context [Z.even ?q] => destruct (Z.even q) end;
    lia.
Qed.

(** A float between 5.796 and 22.204 rounds to a whole number of
    hundredths between 580 and 2220. *)
Lemma round2_of_projection_sum x :
  (5.796 <=? x) = true -> (x <=? 22.204) = true ->
  exists k, (580 <= Zpos k <= 2220)%Z /\ round2 x = of_hundredths k.
Proof.
  intros Hlo Hhi. rewrite leb_spec in Hlo, Hhi.
  change (Prim2SF 5.796) with (S754_finite false 6525715860059849 (-50)) in Hlo.
  change (Prim2SF 22.204) with (S754_finite false 6249870382883406 (-48)) in Hhi.
  pose proof (Prim2SF_valid x) as Hvalid.
  unfold round2.
  destruct (Prim2SF x) as [s|s| |s m e]; try (destruct s; discriminate); try discriminate.
  destruct s; [discriminate|].
  unfold SFleb, SFcompare in Hlo, Hhi.
  change (PosDef.Pos.compare_cont Eq) with Pos.compare in Hlo, Hhi.
  unfold SpecFloat.valid_binary, bounded, canonical_mantissa, fexp in Hvalid.
  apply andb_true_iff in Hvalid. destruct Hvalid as [Hcanon _].
  apply Z.eqb_eq in Hcanon.
  pose proof (digits2_pos_bounds m) as Hdigits.
  assert (He : (-50 <= e <= -48)%Z).
  { destruct (Z.compare_spec (-50) e); destruct (Z.compare_spec e (-48));
      try discriminate; lia. }
  assert (Hd : Zpos (digits2_pos m) = 53%Z).
  { unfold SpecFloat.emin, emax, prec in Hcanon. lia. }
  rewrite Hd in Hdigits.
  change (2 ^ (53 - 1))%Z with 4503599627370496%Z in Hdigits.
  change (2 ^ 53)%Z with 9007199254740992%Z in Hdigits.
  assert (Hm : (e = -50 /\ 6525715860059849 <= Zpos m <= 9007199254740991
                \/ e = -49 /\ 4503599627370496 <= Zpos m <= 9007199254740991
                \/ e = -48 /\ 4503599627370496 <= Zpos m <= 6249870382883406)%Z).
  { destruct (Z.compare_spec (-50) e) as [E50| |]; [| |discriminate].
    - left. split; [lia|].
      destruct (Pos.compare_spec 6525715860059849 m) as [Em|Hlt|];
        [| |discriminate].
      * rewrite <- Em. clear. lia.
      * split; [apply Z.lt_le_incl; exact Hlt|clear - Hdigits; lia].
    - destruct (Z.compare_spec e (-48)) as [E48| |]; [| |discriminate].
      + right. right. split; [exact E48|].
        destruct (Pos.compare_spec m 6249870382883406) as [Em|Hlt|];
          [| |discriminate].
        * rewrite Em. clear. lia.
        * split; [apply Hdigits|apply Z.lt_le_incl; exact Hlt].
      + right. left. lia. }
  assert (Hmono : forall lo hi d,
            (0 < d)%Z -> (lo <= Zpos m <= hi)%Z ->
            (div_half_even (lo * 100) d <= div_half_even (Zpos m * 100) d
             <= div_half_even (hi * 100) d)%Z).
  { intros lo hi d Hdpos Hb. split; apply div_half_even_mono; lia. }
  assert (Hn : (580 <= hundredths m e <= 2220)%Z).
  { destruct Hm as [[-> Hm]|[[-> Hm]|[-> Hm]]]; unfold hundredths.
    - pose proof (Hmono _ _ (2 ^ 50)%Z eq_refl Hm) as Hb.
      change (div_half_even (6525715860059849 * 100) (2 ^ 50)) with 580%Z in Hb.
      change (div_half_even (9007199254740991 * 100) (2 ^ 50)) with 800%Z in Hb.
      revert Hb. generalize (div_half_even (Zpos m * 100) (2 ^ 50)). clear. lia.
    - pose proof (Hmono _ _ (2 ^ 49)%Z eq_refl Hm) as Hb.
      change (div_half_even (4503599627370496 * 100) (2 ^ 49)) with 800%Z in Hb.
      change (div_half_even (9007199254740991 * 100) (2 ^ 49)) with 1600%Z in Hb.
      revert Hb. generalize (div_half_even (Zpos m * 100) (2 ^ 49)). clear. lia.
    - pose proof (Hmono _ _ (2 ^ 48)%Z eq_refl Hm) as Hb.
      change (div_half_even (4503599627370496 * 100) (2 ^ 48)) with 1600%Z in Hb.
      change (div_half_even (6249870382883406 * 100) (2 ^ 48)) with 2220%Z in Hb.
      revert Hb. generalize (div_half_even (Zpos m * 100) (2 ^ 48)). clear. lia. }
  revert Hn.
  destruct (hundredths m e) as [|k|k]; intros Hn; [exfalso; clear - Hn; lia| |exfalso; clear - Hn; lia].
  exists k. split; [exact Hn|reflexivity].
Qed.

(** The floats of 5.80, 5.81, ..., 22.20. *)
Lemma hundredths_range_checked :
  forallb (fun k => hundredths_in_range (Pos.of_nat k)) (seq 580 1641) = true.
Proof. vm_compute. reflexivity. Qed.

(** Every combination of a baseline, a bonus, a team adjustment and a
    name variation. *)
Lemma projection_sums_checked :
  forallb
    (fun variation =>
       forallb
         (fun base_bonus => forallb (fun team_adj => sum_in_range base_bonus team_adj variation)
                              team_values)
         base_bonus_values)
    variation_values = true.
Proof. vm_compute. reflexivity. Qed.

(** [project_player] always returns a projection between 5.8 and 22.2, for
    every name, position, team, preset key and hash: the sum it rounds is
    never zero or negative, so the floor [max(0.0, ...)] never applies. *)
Theorem project_player_range (hash : string -> Z) (name : string)
    (position team : option string) (scoring_type : string) :
  (5.8 <=? project_player hash name position team scoring_type) = true
  /\ (project_player hash name position team scoring_type <=? 22.2) = true
  /\ (0 <? project_player hash name position team scoring_type) = true.
Proof.
  unfold project_player.
  set (pos := upper _).
  set (team_key := upper _).
  pose proof (base_bonus_in_values pos scoring_type) as Hbb.
  pose proof (team_adj_in_values team_key) as Ht.
  pose proof (variation_in_values hash name) as Hv.
  pose proof projection_sums_checked as Hall.
  rewrite forallb_forall in Hall. specialize (Hall _ Hv).
  rewrite forallb_forall in Hall. specialize (Hall _ Hbb).
  rewrite forallb_forall in Hall. specialize (Hall _ Ht).
  unfold sum_in_range, projection_sum in Hall. simpl fst in Hall. simpl snd in Hall.
  apply andb_true_iff in Hall. destruct Hall as [Hlo Hhi].
  destruct (round2_of_projection_sum _ Hlo Hhi) as [k [Hk ->]].
  pose proof hundredths_range_checked as Hrange.
  rewrite forallb_forall in Hrange. specialize (Hrange (Pos.to_nat k)).
  rewrite Pos2Nat.id in Hrange.
  assert (Hin : In (Pos.to_nat k) (seq 580 1641)) by (apply in_seq; lia).
  specialize (Hrange Hin). unfold hundredths_in_range in Hrange.
  apply andb_true_iff in Hrange. destruct Hrange as [Hrange Hle].
  apply andb_true_iff in Hrange. destruct Hrange as [Hpos Hge].
  unfold max_float. rewrite Hpos. auto.
Qed.

(** ** The player search *)

(** The loop adds matching entries until the list is full. *)
Lemma search_loop_firstn hash q t p season week st limit items : forall results,
  (results = [] \/ Z.of_nat (List.length results) < limit)%Z ->
  search_loop hash q t p season week st limit items results
  = (results
       ++ map (found_entry hash season week st)
            (firstn (Z.to_nat (Z.max 1 limit) - List.length results)
               (filter (fun item => entry_matches q t p (snd item)) items)))%list.
Proof.
  induction items as [|item items IH]; intros results Hinv; simpl.
  - now rewrite firstn_nil, app_nil_r.
  - destruct (entry_matches q t p (snd item)) eqn:Em; [|now apply IH].
    rewrite length_app. simpl List.length.
    assert (Hk : (Z.to_nat (Z.max 1 limit) - List.length results
                  = S (Z.to_nat (Z.max 1 limit) - S (List.length results)))%nat).
    { destruct Hinv as [->|Hlt]; simpl; lia. }
    rewrite Hk. simpl firstn. simpl map.
    destruct (limit <=? Z.of_nat (List.length results + 1))%Z eqn:El.
    + apply Z.leb_le in El.
      assert (Hz : (Z.to_nat (Z.max 1 limit) - S (List.length results) = 0)%nat).
      { destruct Hinv as [->|Hlt]; simpl in *; lia. }
      rewrite Hz. reflexivity.
    + apply Z.leb_gt in El. rewrite IH by (right; rewrite length_app; simpl; lia).
      rewrite length_app. simpl List.length.
      rewrite <- app_assoc. simpl. do 4 f_equal. lia.
Qed.

(** [search_players] returns the first [max(1, limit)] entries of the
    catalog that pass the three filters, in catalog order: at most [limit]
    results for a positive [limit], and still one result when [limit] is
    zero or negative; every result has the team and the position asked
    for. *)
Theorem search_players_first_matches (hash : string -> Z)
    (query team position : option string) (season : Z) (week : option Z)
    (scoring_type : string) (limit : Z) (catalog : list (string * Info.t)) :
  let q := lower (strip (or_empty query)) in
  let t := upper (strip (or_empty team)) in
  let p := upper (strip (or_empty position)) in
  let results :=
    search_players hash query team position season week scoring_type limit catalog in
  results
  = map (found_entry hash season week scoring_type)
      (firstn (Z.to_nat (Z.max 1 limit))
         (filter (fun item => entry_matches q t p (snd item)) catalog))
  /\ (Z.of_nat (List.length results) <= Z.max 1 limit)%Z
  /\ (forall r, In r results ->
        (t <> "" -> Found.team r = t) /\ (p <> "" -> Found.position r = p)).
Proof.
  cbv zeta.
  assert (Heq : search_players hash query team position season week scoring_type
                  limit catalog
                = map (found_entry hash season week scoring_type)
                    (firstn (Z.to_nat (Z.max 1 limit))
                       (filter (fun item =>
                                  entry_matches (lower (strip (or_empty query)))
                                    (upper (strip (or_empty team)))
                                    (upper (strip (or_empty position))) (snd item))
                          catalog))).
  { unfold search_players. destruct catalog as [|item catalog]; [now rewrite firstn_nil|].
    simpl is_empty. cbv iota. rewrite search_loop_firstn by now left.
    simpl. now rewrite Nat.sub_0_r. }
  split; [exact Heq|]. rewrite Heq. split.
  - rewrite length_map, length_firstn. lia.
  - intros r Hr. apply in_map_iff in Hr. destruct Hr as [[pid info] [<- Hin]].
    assert (Hin' : In (pid, info)
                      (filter (fun item =>
                                 entry_matches (lower (strip (or_empty query)))
                                   (upper (strip (or_empty team)))
                                   (upper (strip (or_empty position))) (snd item))
                         catalog)).
    { rewrite <- (firstn_skipn (Z.to_nat (Z.max 1 limit))). apply in_or_app. now left. }
    clear Hin. rename Hin' into Hin. apply filter_In in Hin. destruct Hin as [_ Hm].
    unfold entry_matches in Hm. simpl snd in Hm.
    apply andb_true_iff in Hm. destruct Hm as [Hm Hp].
    apply andb_true_iff in Hm. destruct Hm as [_ Ht].
    simpl. split; intros Hne.
    + apply String.eqb_neq in Hne. rewrite Hne in Ht. simpl in Ht.
      apply negb_true_iff, negb_false_iff in Ht. now apply String.eqb_eq in Ht.
    + apply String.eqb_neq in Hne. rewrite Hne in Hp. simpl in Hp.
      apply negb_true_iff, negb_false_iff in Hp. now apply String.eqb_eq in Hp.
Qed.

(** ** Sorting *)

Lemma insert_sorted_Permutation {A : Type} (lt : A -> A -> bool) x l :
  Permutation (insert_sorted lt x l) (x :: l).
Proof.
  induction l as [|y l IH]; simpl; auto.
  destruct (lt x y); auto.
  apply perm_trans with (y :: x :: l); [now constructor|apply perm_swap].
Qed.

Lemma sorted_Permutation {A : Type} (lt : A -> A -> bool) l :
  Permutation (sorted lt l) l.
Proof.
  unfold sorted.
  assert (H : forall acc, Permutation (fold_left (fun acc x => insert_sorted lt x acc) l acc)
                            (acc ++ l)).
  { induction l as [|x l IH]; intros acc; simpl.
    - now rewrite app_nil_r.
    - eapply perm_trans; [apply IH|].
      eapply perm_trans; [apply Permutation_app_tail, insert_sorted_Permutation|].
      simpl. apply Permutation_middle. }
  apply (H []).
Qed.

Lemma sorted_reverse_Permutation {A : Type} (lt : A -> A -> bool) l :
  Permutation (sorted_reverse lt l) l.
Proof.
  unfold sorted_reverse.
  eapply perm_trans; [apply Permutation_sym, Permutation_rev|].
  eapply perm_trans; [apply sorted_Permutation|].
  apply Permutation_sym, Permutation_rev.
Qed.

(** ** The per-position index *)

Lemma index_fold_get st players : forall pos_map pos,
  dict_get_default pos [] (fold_left (index_step st) players pos_map)
  = (dict_get_default pos [] pos_map
       ++ map (index_entry st) (players_at pos players))%list.
Proof.
  induction players as [|p players IH]; intros pos_map pos; simpl.
  - now rewrite app_nil_r.
  - rewrite IH. unfold index_step.
    destruct (String.eqb_spec (position_of p) pos) as [->|Hne].
    + rewrite dict_get_default_set_same. simpl. now rewrite <- app_assoc.
    + now rewrite dict_get_default_set_other.
Qed.

Lemma index_fold_keys st players : forall pos_map pos,
  In pos (dict_keys (fold_left (index_step st) players pos_map)) <->
  In pos (dict_keys pos_map) \/ players_at pos players <> [].
Proof.
  induction players as [|p players IH]; intros pos_map pos; simpl.
  - split; [tauto|]. intros [H|H]; [auto|contradiction].
  - rewrite IH. unfold index_step. rewrite In_dict_keys_set.
    destruct (String.eqb_spec (position_of p) pos) as [->|Hne].
    + split; [intros _; right; discriminate|intros _; left; left; reflexivity].
    + split; [intros [[->|H]|H]; [contradiction|auto|auto]|intros [H|H]; auto].
Qed.




(** ** Suggestions and the decision *)

Lemma team_strength_fst_snd ps st :
  team_strength_v3 ps st = (fst (team_strength_v3 ps st), snd (team_strength_v3 ps st)).
Proof. now destruct (team_strength_v3 ps st). Qed.

(** The two trade lists follow the decision of the final summary: both are
    empty on Accept; on Neutral the unfavorable list is empty and the neutral
    list opens with the marginal-gains message, followed by at most one
    bench message; on Reject the neutral list is empty and the unfavorable
    list is non-empty exactly when the rounded delta is negative (it is
    empty for a NaN delta). *)
Theorem trade_lists_follow_decision (before_players after_players : list Player)
    (scoring_type : string) :
  let delta_total :=
    round2 (fst (team_strength_v3 after_players scoring_type)
            - fst (team_strength_v3 before_players scoring_type)) in
  let s := _generate_trade_suggestions before_players after_players scoring_type in
  (decision_of delta_total = "Accept" ->
     unfavorable_trade_recos s = [] /\ neutral_trade_suggestions s = [])
  /\ (decision_of delta_total = "Neutral" ->
        unfavorable_trade_recos s = []
        /\ (exists rest,
              neutral_trade_suggestions s
              = "Seek marginal gains: prioritize positions with small positive bench deltas to convert into starters."
                  :: rest
              /\ (List.length rest <= 1)%nat))
  /\ (decision_of delta_total = "Reject" ->
        neutral_trade_suggestions s = []
        /\ (unfavorable_trade_recos s <> [] <-> (delta_total <? 0) = true)).
Proof.
  cbv zeta. rewrite generate_unfold. cbv zeta.
  set (d := round2 _).
  simpl unfavorable_trade_recos. simpl neutral_trade_suggestions.
  unfold unfavorable_trade_recos_of, neutral_trade_suggestions_of.
  pose proof (decision_of_cases d) as [_ [_ [_ [Ha [Hn Hr]]]]].
  split; [|split].
  - intros Hd. apply Ha in Hd.
    destruct (d <? 0) eqn:Eneg.
    { apply float_negative_exclusive in Eneg. destruct Eneg; congruence. }
    destruct (d =? 0) eqn:Ez; [|auto].
    exfalso. assert (Hneu : decision_of d = "Neutral").
    { apply (proj1 (proj2 (decision_of_cases d))). exact Ez. }
    apply Hn in Hneu. destruct Hneu; congruence.
  - intros Hd. apply Hn in Hd. destruct Hd as [Hpos Hz]. rewrite Hz.
    destruct (d <? 0) eqn:Eneg.
    { apply float_negative_exclusive in Eneg. destruct Eneg; congruence. }
    split; [reflexivity|]. eexists. split; [reflexivity|].
    destruct (sorted_reverse snd_lt _) as [|[pos g] l]; simpl; lia.
  - intros Hd.
    assert (Hz : (d =? 0) = false).
    { destruct (d =? 0) eqn:Ez; auto.
      assert (Hneu : decision_of d = "Neutral")
        by (apply (proj1 (proj2 (decision_of_cases d))); exact Ez).
      rewrite Hd in Hneu. discriminate. }
    rewrite Hz. split; [reflexivity|].
    destruct (d <? 0).
    + split; auto. intros _ H. apply app_eq_nil in H. destruct H; discriminate.
    + split; [intros H; now contradiction H|discriminate].
Qed.

Lemma flat_map_nil {A B : Type} (f : A -> list B) (l : list A) :
  flat_map f l = [] <-> forall x, In x l -> f x = [].
Proof.
  induction l as [|a l IH]; simpl.
  - split; [intros _ x []|reflexivity].
  - split.
    + intros H. apply app_eq_nil in H. destruct H as [Ha Hl].
      intros x [<-|Hx]; [exact Ha|now apply IH].
    + intros H. rewrite (H a) by now left. simpl. apply IH.
      intros x Hx. apply H. now right.
Qed.

Lemma position_limits_positive pos limit :
  In (pos, limit) POSITION_LIMITS -> (1 <= limit)%Z.
Proof.
  unfold POSITION_LIMITS. simpl. intros H. each_entry H lia.
Qed.

(** The positional-need warnings are empty exactly when the lineup is valid
    and every position of [POSITION_LIMITS] has a starter. *)
Theorem no_need_warning_iff_staffed_and_valid (after_players : list Player) :
  positional_need_warnings_of after_players = [] <->
  valid (validate_lineup after_players) = true
  /\ forall pos, In pos (dict_keys POSITION_LIMITS) ->
                 (1 <= starters_at after_players pos)%Z.
Proof.
  unfold positional_need_warnings_of. cbv zeta.
  assert (Hcount : forall pos,
            dict_get_default pos 0%Z (starter_counts (validate_lineup after_players))
            = starters_at after_players pos).
  { intros pos. unfold validate_lineup, count_starters. simpl.
    rewrite count_fold_get. unfold dict_get_default at 1. simpl. lia. }
  assert (Hvalid : valid (validate_lineup after_players) = true <->
                   violations (validate_lineup after_players) = []).
  { unfold validate_lineup. simpl.
    destruct (check_limits (count_starters after_players)); simpl; split;
      auto; discriminate. }
  match goal with
  | |- app (map ?g ?l) (flat_map ?f ?t) = [] <-> _ =>
      set (warn := f); set (too_many := g)
  end.
  assert (Hwarn : forall pos limit, In (pos, limit) POSITION_LIMITS ->
            (warn (pos, limit) = [] <-> (1 <= starters_at after_players pos)%Z)).
  { intros pos limit Hin. unfold warn. rewrite Hcount.
    pose proof (position_limits_positive pos limit Hin).
    pose proof (starters_at_nonneg after_players pos).
    assert (Hlt : (0 <? limit)%Z = true) by (apply Z.ltb_lt; lia).
    rewrite Hlt. simpl.
    destruct (Z.eqb_spec (starters_at after_players pos) 0); split;
      try discriminate; auto; lia. }
  split.
  - intros H. apply app_eq_nil in H. destruct H as [Hmap Hflat].
    split.
    + apply Hvalid. now destruct (violations (validate_lineup after_players)).
    + intros pos Hin. apply dict_get_In_keys in Hin. destruct Hin as [limit Hget].
      apply dict_get_Some_In in Hget. apply (Hwarn pos limit Hget).
      now apply (proj1 (flat_map_nil warn POSITION_LIMITS) Hflat).
  - intros [Hv Hall]. apply Hvalid in Hv. rewrite Hv. cbn [map app].
    apply flat_map_nil. intros [pos limit] Hin. apply Hwarn; auto.
    apply Hall. unfold dict_keys. change pos with (fst (pos, limit)).
    now apply in_map.
Qed.

(** ** The strength history *)

Lemma score_of_normalized_projection n pos team x st flag :
  calculate_player_score
    (mkPlayer n pos team (Some (if PrimFloat.eqb x 0 then 0.0 else x)) flag) st
  = calculate_player_score (mkPlayer n pos team (Some x) flag) st.
Proof.
  unfold calculate_player_score, projection_of, position_of. simpl.
  destruct (PrimFloat.eqb x 0) eqn:E; [|now rewrite E].
  reflexivity.
Qed.

(** The history lists the weeks 1 to [max(1, upto_week)], one item each (so
    a single week 1 when [upto_week] is zero or negative); and when the
    catalog has no row for any player, every week repeats the starter and
    bench totals of the stored roster. *)
Theorem strength_history_weeks (live_projection : Z -> Row -> option float)
    (roster : list Row) (scoring_setting : option string) (upto_week : Z) :
  let history :=
    strength_history_for_weeks live_projection roster scoring_setting upto_week in
  let scoring_type :=
    match scoring_setting with
    | Some s => if String.eqb s "" then "PPR" else s
    | None => "PPR"
    end in
  map WeekStrength.week history
  = map (fun k => Z.of_nat k) (seq 1 (Z.to_nat (Z.max 1 upto_week)))
  /\ Z.of_nat (List.length history) = Z.max 1 upto_week
  /\ ((forall w p, live_projection w p = None) ->
      forall item, In item history ->
        (WeekStrength.starter_total item, WeekStrength.bench_total item)
        = team_strength_v3 (map row_dict roster) scoring_type).
Proof.
  cbv zeta. unfold strength_history_for_weeks.
  split; [|split].
  - induction (map (fun k => Z.of_nat k) (seq 1 (Z.to_nat (Z.max 1 upto_week))))
      as [|w weeks IH]; simpl; [reflexivity|].
    rewrite IH. now destruct (team_strength_v3 _ _).
  - rewrite !length_map, length_seq. lia.
  - intros Hnone item Hin. apply in_map_iff in Hin.
    destruct Hin as [w [<- _]].
    match goal with
    | |- context [team_strength_v3 (map ?f roster) ?st] =>
        assert (Heq : team_strength_v3 (map f roster) st
                      = team_strength_v3 (map row_dict roster) st)
    end.
    { unfold team_strength_v3.
      rewrite (fold_left_map_ext _
                 (fun acc p =>
                    strength_step
                      match scoring_setting with
                      | Some s => if String.eqb s "" then "PPR" else s
                      | None => "PPR"
                      end acc (row_dict p))).
      - symmetry. now apply fold_left_map_ext.
      - intros [s b] p. rewrite Hnone. unfold strength_step, row_dict.
        rewrite score_of_normalized_projection. reflexivity. }
    rewrite Heq. destruct (team_strength_v3 (map row_dict roster) _). reflexivity.
Qed.

(** ** Letter case of the traded names *)

Lemma remove_by_names_upper items names names' :
  map upper names' = map upper names ->
  remove_by_names items names' = remove_by_names items names.
Proof. intros H. unfold remove_by_names. now rewrite H. Qed.

Lemma pick_from_pool_as_upper pool names :
  pick_from_pool pool names
  = flat_map
      (fun u =>
         match find (fun i => String.eqb (upper (name i)) u) pool with
         | Some found => [found]
         | None => []
         end)
      (map upper names).
Proof.
  unfold pick_from_pool. induction names as [|n names IH]; simpl; auto.
  now rewrite IH.
Qed.

Lemma missing_names_empty_as_upper names players :
  is_empty (missing_names names players)
  = forallb
      (fun u => existsb (String.eqb u) (map (fun p => upper (name p)) players))
      (map upper names).
Proof.
  unfold missing_names. induction names as [|n names IH]; simpl; auto.
  destruct (existsb (String.eqb (upper n)) _); simpl; auto.
Qed.

Lemma is_empty_map {A B : Type} (f : A -> B) (l : list A) :
  is_empty (map f l) = is_empty l.
Proof. now destruct l. Qed.

(** Names are matched letter case apart throughout: two requests whose give
    names and whose receive names agree once upper-cased either both fail
    or both complete, and then with the same post roster, strengths, delta,
    rationale and suggestions. *)
Theorem trade_ignores_letter_case
    (other_name : string) (my_input other_input : list Player)
    (give_names receive_names give_names' receive_names' : list string)
    (scoring_type : string) :
  map upper give_names' = map upper give_names ->
  map upper receive_names' = map upper receive_names ->
  match trade_analyze other_name my_input other_input give_names receive_names
          scoring_type,
        trade_analyze other_name my_input other_input give_names' receive_names'
          scoring_type with
  | Analyzed a, Analyzed a' =>
      my_post a' = my_post a
      /\ before_strength (report a') = before_strength (report a)
      /\ after_strength (report a') = after_strength (report a)
      /\ delta (report a') = delta (report a)
      /\ rationale (report a') = rationale (report a)
      /\ suggestions a' = suggestions a
  | Flash _ _ _, Flash _ _ _ => True
  | _, _ => False
  end.
Proof.
  intros Hg Hr. unfold trade_analyze.
  destruct (is_empty my_input); [exact I|].
  assert (Hboth : is_empty give_names' && is_empty receive_names'
                  = is_empty give_names && is_empty receive_names).
  { rewrite <- (is_empty_map upper give_names'), <- (is_empty_map upper receive_names'),
      Hg, Hr, !is_empty_map. reflexivity. }
  rewrite Hboth.
  destruct (is_empty give_names && is_empty receive_names); [exact I|].
  destruct (team_strength_v3 my_input scoring_type) as [base_starters base_bench].
  rewrite (missing_names_empty_as_upper give_names'),
    (missing_names_empty_as_upper receive_names'),
    (missing_names_empty_as_upper give_names),
    (missing_names_empty_as_upper receive_names), Hg, Hr.
  destruct (forallb _ (map upper give_names)); simpl negb; cbv iota; [|exact I].
  destruct (forallb _ (map upper receive_names)); simpl negb; cbv iota; [|exact I].
  rewrite (remove_by_names_upper my_input give_names give_names' Hg).
  rewrite (pick_from_pool_as_upper other_input receive_names'), Hr,
    <- (pick_from_pool_as_upper other_input receive_names).
  destruct (team_strength_v3 _ scoring_type) as [post_starters post_bench].
  simpl. repeat split.
Qed.

(** The swap of scenario C, asked for in two spellings. *)
Lemma trade_ignores_letter_case_witness :
  match trade_analyze "Rivals" scenario_roster scenario_pool ["bo"] ["ed"] "PPR",
        trade_analyze "Rivals" scenario_roster scenario_pool ["BO"] ["eD"] "PPR" with
  | Analyzed a, Analyzed a' =>
      my_post a' = my_post a
      /\ before_strength (report a') = before_strength (report a)
      /\ after_strength (report a') = after_strength (report a)
      /\ delta (report a') = delta (report a)
      /\ rationale (report a') = rationale (report a)
      /\ suggestions a' = suggestions a
  | Flash _ _ _, Flash _ _ _ => True
  | _, _ => False
  end.
Proof.
  exact (trade_ignores_letter_case "Rivals" scenario_roster scenario_pool
           ["bo"] ["ed"] ["BO"] ["eD"] "PPR" eq_refl eq_refl).
Defined.

(** ** Order of the roster *)

Lemma starters_at_Permutation players players' pos :
  Permutation players players' -> starters_at players pos = starters_at players' pos.
Proof.
  intros H. induction H as [|p l l' H IH|p q l|l l' l'' H1 IH1 H2 IH2].
  - reflexivity.
  - rewrite !starters_at_cons, IH. reflexivity.
  - rewrite !starters_at_cons. lia.
  - congruence.
Qed.

(** The verdict of [validate_lineup] does not depend on the order of the
    players: two orders of a roster give the same starter counts, the same
    set of violations and the same [valid]. *)
Theorem validate_lineup_order_irrelevant (players players' : list Player) :
  Permutation players players' ->
  valid (validate_lineup players') = valid (validate_lineup players)
  /\ (forall pos,
        dict_get_default pos 0%Z (starter_counts (validate_lineup players'))
        = dict_get_default pos 0%Z (starter_counts (validate_lineup players)))
  /\ Permutation (violations (validate_lineup players'))
       (violations (validate_lineup players)).
Proof.
  intros Hperm.
  assert (Hcount : forall ps pos,
            dict_get_default pos 0%Z (starter_counts (validate_lineup ps))
            = starters_at ps pos).
  { intros ps pos. unfold validate_lineup, count_starters. simpl.
    rewrite count_fold_get. unfold dict_get_default at 1. simpl. lia. }
  split; [|split].
  - apply Bool.eq_true_iff_eq. rewrite !lineup_within_limits.
    split; intros H pos; specialize (H pos);
      rewrite (starters_at_Permutation players players' pos Hperm) in *; exact H.
  - intros pos. rewrite !Hcount. symmetry. now apply starters_at_Permutation.
  - unfold validate_lineup. simpl.
    assert (Hnd : forall ps, NoDup (check_limits (count_starters ps))).
    { intros ps.
      apply (NoDup_map_inv Violation.position).
      apply check_limits_positions, count_fold_NoDup. constructor. }
    apply NoDup_Permutation; auto.
    intros v. rewrite !check_limits_In.
    split; intros [pos [c [Hin Hrest]]]; exists pos, c; split; auto;
      apply count_starters_In; apply count_starters_In in Hin;
      rewrite (starters_at_Permutation players players' pos Hperm) in *; exact Hin.
Qed.

(** The roster of the scenarios, in two orders. *)
Lemma validate_lineup_order_irrelevant_witness :
  valid (validate_lineup (rev scenario_roster)) = valid (validate_lineup scenario_roster)
  /\ (forall pos,
        dict_get_default pos 0%Z (starter_counts (validate_lineup (rev scenario_roster)))
        = dict_get_default pos 0%Z (starter_counts (validate_lineup scenario_roster)))
  /\ Permutation (violations (validate_lineup (rev scenario_roster)))
       (violations (validate_lineup scenario_roster)).
Proof.
  apply (validate_lineup_order_irrelevant scenario_roster (rev scenario_roster)).
  apply Permutation_rev.
Defined.

(** ** Bench-only trades *)

Lemma sub_self_finite x : is_finite x = true -> x - x = 0.
Proof.
  unfold is_finite. intros H.
  rewrite <- (SF2Prim_Prim2SF (x - x)), sub_spec.
  destruct (Prim2SF x) as [s|s| |s m e]; try discriminate.
  - now destruct s.
  - unfold SF64sub, SFsub. rewrite Z.sub_diag. reflexivity.
Qed.

Lemma filter_filter_implied {A : Type} (f keep : A -> bool) (l : list A) :
  (forall x, In x l -> f x = true -> keep x = true) ->
  filter f (filter keep l) = filter f l.
Proof.
  induction l as [|x l IH]; intros H; simpl; auto.
  destruct (keep x) eqn:Ek; simpl.
  - rewrite IH; auto. intros y Hy. apply H. now right.
  - destruct (f x) eqn:Ef.
    + rewrite (H x) in Ek; [discriminate|now left|exact Ef].
    + apply IH. intros y Hy. apply H. now right.
Qed.

Lemma filter_none {A : Type} (f : A -> bool) (l : list A) :
  (forall x, In x l -> f x = false) -> filter f l = [].
Proof.
  induction l as [|x l IH]; intros H; simpl; auto.
  rewrite (H x) by now left. apply IH. intros y Hy. apply H. now right.
Qed.

Lemma Forall2_In_r {A B : Type} (R : A -> B -> Prop) l l' y :
  Forall2 R l l' -> In y l' -> exists x, In x l /\ R x y.
Proof.
  induction 1 as [|a b l l' Hab Hl IH]; simpl; [tauto|].
  intros [<-|Hy]; [eauto|]. destruct (IH Hy) as [x [Hx Hr]]. eauto.
Qed.

(** A trade of bench players only leaves the headline strength as it was:
    when no starter of the roster bears a give name and every player picked
    for a receive name is on the bench of the pool, the after strength is
    the before strength, bit for bit, and for a finite strength the delta is
    0.0 and the rationale Neutral. *)
Theorem bench_only_trade_is_neutral
    (other_name : string) (my_input other_input : list Player)
    (give_names receive_names : list string) (scoring_type : string) :
  passes_validation my_input other_input give_names receive_names ->
  (forall p n, In p my_input -> counts_as_starter p = true -> In n give_names ->
               upper n <> upper (name p)) ->
  (forall p n, In n receive_names -> first_match other_input n p ->
               counts_as_starter p = false) ->
  exists analysis,
    trade_analyze other_name my_input other_input give_names receive_names
      scoring_type = Analyzed analysis
    /\ after_strength (report analysis) = before_strength (report analysis)
    /\ (is_finite (before_strength (report analysis)) = true ->
        delta (report analysis) = 0
        /\ decision_of (delta (report analysis)) = "Neutral").
Proof.
  intros Hvalid Hgive Hrecv. eexists. split; [now apply trade_analyze_passes|].
  unfold completed_analysis. simpl.
  assert (Hsame : fst (team_strength_v3
                         (remove_by_names my_input give_names
                            ++ pick_from_pool other_input receive_names)%list
                         scoring_type)
                  = fst (team_strength_v3 my_input scoring_type)).
  { unfold team_strength_v3. rewrite !team_strength_v3_from. simpl. f_equal.
    rewrite filter_app. unfold remove_by_names.
    rewrite filter_filter_implied.
    - rewrite (filter_none counts_as_starter (pick_from_pool _ _)).
      + now rewrite app_nil_r.
      + intros p Hp.
        destruct Hvalid as [_ [_ [_ Hr]]].
        pose proof (pick_from_pool_first_matches other_input receive_names
                      (missing_names_none _ _ Hr)) as Hall.
        destruct (Forall2_In_r _ _ _ _ Hall Hp) as [n [Hn Hm]].
        now apply (Hrecv p n).
    - intros p Hin Hst. apply negb_true_iff.
      destruct (existsb _ _) eqn:E; auto.
      apply existsb_exists in E. destruct E as [u [Hu Heq]].
      apply in_map_iff in Hu. destruct Hu as [n [<- Hn]].
      apply String.eqb_eq in Heq. exfalso. apply (Hgive p n Hin Hst Hn). auto. }
  split; [exact Hsame|].
  intros Hfin. rewrite Hsame, (sub_self_finite _ Hfin).
  split; reflexivity.
Qed.

Lemma scenario_bench_swap_passes :
  passes_validation scenario_roster scenario_pool ["cy"] ["fy"].
Proof.
  split; [discriminate|]. split; [intros [H _]; discriminate|]. split.
  - intros n [<-|[]] Habs.
    apply (Habs (mkPlayer "Cy" (Some "RB") None (Some 12) (Val false)));
      [simpl; auto|reflexivity].
  - intros n [<-|[]] Habs.
    apply (Habs (mkPlayer "Fy" (Some "TE") None (Some 8) (Val false)));
      [simpl; auto|reflexivity].
Defined.

(** The bench running back for the bench tight end of the pool. *)
Lemma bench_only_trade_is_neutral_witness :
  exists analysis,
    trade_analyze "Rivals" scenario_roster scenario_pool ["cy"] ["fy"] "PPR"
    = Analyzed analysis
    /\ after_strength (report analysis) = before_strength (report analysis)
    /\ (is_finite (before_strength (report analysis)) = true ->
        delta (report analysis) = 0
        /\ decision_of (delta (report analysis)) = "Neutral").
Proof.
  apply (bench_only_trade_is_neutral "Rivals" scenario_roster scenario_pool
           ["cy"] ["fy"] "PPR" scenario_bench_swap_passes).
  - intros p n [<-|[<-|[<-|[]]]] Hst [<-|[]]; vm_compute; discriminate.
  - intros p n [<-|[]] [before [after [Hpool [Hname _]]]].
    assert (Hin : In p scenario_pool) by (rewrite Hpool; apply in_elt).
    destruct Hin as [<-|[<-|[<-|[]]]]; vm_compute in Hname;
      try discriminate; reflexivity.
Defined.

(** ** The missing starter flag, function by function *)

Lemma dict_get_default_In_keys {V : Type} k (dflt : V) d :
  In k (dict_keys d) -> dict_get k d = Some (dict_get_default k dflt d).
Proof.
  intros Hin. apply dict_get_In_keys in Hin. destruct Hin as [v Hv].
  unfold dict_get_default. now rewrite Hv.
Qed.

Lemma dict_get_map_values {V W : Type} (f : V -> W) k (d : list (string * V)) :
  dict_get k (map (fun '(k', v) => (k', f v)) d) = option_map f (dict_get k d).
Proof.
  induction d as [|[k' v] d IH]; simpl; [reflexivity|].
  destruct (String.eqb k' k); [reflexivity|exact IH].
Qed.

(** The entry of a position in the breakdown holds the two running sums of
    the players of that position. *)
Lemma breakdown_fold_get st players : forall bd pos,
  dict_get_default pos (mkSplit 0.0 0.0) (fold_left (breakdown_step st) players bd)
  = mkSplit
      (fold_left PrimFloat.add
         (map (fun p => calculate_player_score p st)
            (filter stated_starter (at_position pos players)))
         (starter (dict_get_default pos (mkSplit 0.0 0.0) bd)))
      (fold_left PrimFloat.add
         (map (fun p => calculate_player_score p st)
            (filter (fun p => negb (stated_starter p)) (at_position pos players)))
         (bench (dict_get_default pos (mkSplit 0.0 0.0) bd))).
Proof.
  induction players as [|p players IH]; intros bd pos.
  - simpl. now destruct (dict_get_default pos _ bd).
  - simpl fold_left at 1. rewrite IH. unfold at_position. simpl filter.
    unfold breakdown_step. rewrite position_of_normalized.
    change (get_truthy_default_true (is_starter p)) with (stated_starter p).
    destruct (String.eqb_spec (normalized_position p) pos) as [->|Hne].
    + destruct (stated_starter p) eqn:Es; simpl filter; rewrite Es; simpl;
        rewrite dict_get_default_set_same; reflexivity.
    + destruct (stated_starter p);
        rewrite dict_get_default_set_other by exact Hne; reflexivity.
Qed.

(** C9. A player whose [is_starter] key is missing is handled as a starter
    by the team-strength aggregation, the lineup validation, the position
    breakdown and the per-position index of the suggestion generator.  Each
    of them returns what it returns when the key is written out as [True];
    the starter total is the sum over the players whose flag is true or
    missing and the bench total that over the others; the starter count of a
    position counts those players; the breakdown of a position holds the
    two sums of its players; the index of a position holds one entry per
    player, flagged true when the key is true or missing.  So a player
    without the key is summed with the starters, counted as a starter, and
    has an index entry with [is_starter = True]. *)
Theorem missing_is_starter_defaults_to_true (players : list Player) (scoring_type : string) :
  let score := fun p => calculate_player_score p scoring_type in
  let bench_player := fun p => negb (stated_starter p) in
  team_strength_v3 (map explicit_starter players) scoring_type
  = team_strength_v3 players scoring_type
  /\ validate_lineup (map explicit_starter players) = validate_lineup players
  /\ position_breakdown_v3 (map explicit_starter players) scoring_type
     = position_breakdown_v3 players scoring_type
  /\ by_position scoring_type (map explicit_starter players)
     = by_position scoring_type players
  /\ team_strength_v3 players scoring_type
     = (float_sum (map score (filter stated_starter players)),
        float_sum (map score (filter bench_player players)))
  /\ (forall pos,
        dict_get_default pos 0%Z (starter_counts (validate_lineup players))
        = stated_starters_at players pos)
  /\ (forall p, In p players ->
        dict_get (normalized_position p) (position_breakdown_v3 players scoring_type)
        = Some (mkSplit
                  (float_sum
                     (map score
                        (filter stated_starter
                           (at_position (normalized_position p) players))))
                  (float_sum
                     (map score
                        (filter bench_player
                           (at_position (normalized_position p) players))))))
  /\ (forall p, In p players ->
        dict_get (normalized_position p) (by_position scoring_type players)
        = Some (sorted_reverse score_lt
                  (map (fun q => Entry.mk (name q) (stated_starter q) (score q))
                     (at_position (normalized_position p) players))))
  /\ (forall p, In p players -> is_starter p = Absent ->
        is_starter (explicit_starter p) = Val true
        /\ counts_as_starter p = true
        /\ (forall acc,
              strength_step scoring_type acc p
              = (fst acc + calculate_player_score p scoring_type, snd acc))
        /\ In p (filter stated_starter players)
        /\ (1 <= stated_starters_at players (normalized_position p))%Z
        /\ exists lst,
             dict_get (normalized_position p) (by_position scoring_type players)
             = Some lst
             /\ In (Entry.mk (name p) true (score p)) lst).
Proof.
  cbv zeta.
  assert (Hindex : forall p, In p players ->
            dict_get (normalized_position p) (by_position scoring_type players)
            = Some (sorted_reverse score_lt
                      (map (fun q => Entry.mk (name q) (stated_starter q)
                                       (calculate_player_score q scoring_type))
                         (at_position (normalized_position p) players)))).
  { intros p Hp. unfold by_position.
    rewrite (dict_get_map_values (sorted_reverse score_lt)).
    rewrite (dict_get_default_In_keys _ []).
    - simpl. rewrite index_fold_get, players_at_stated. reflexivity.
    - apply index_fold_keys. right. rewrite players_at_stated.
      intros Hnil.
      assert (Hin : In p (at_position (normalized_position p) players)).
      { apply filter_In. split; [exact Hp|apply String.eqb_refl]. }
      rewrite Hnil in Hin. contradiction. }
  assert (Hcount : forall pos,
            dict_get_default pos 0%Z (starter_counts (validate_lineup players))
            = stated_starters_at players pos).
  { intros pos. rewrite <- starters_at_stated. unfold validate_lineup, count_starters.
    simpl. rewrite count_fold_get. unfold dict_get_default. simpl. lia. }
  split; [|split; [|split; [|split; [|split; [|split; [|split; [|split]]]]]]].
  - unfold team_strength_v3. apply fold_left_map_ext.
    intros [s b] p. unfold strength_step.
    now rewrite explicit_starter_score, explicit_starter_flag.
  - unfold validate_lineup, count_starters.
    rewrite (fold_left_map_ext count_step count_step explicit_starter); auto.
    intros counts p. unfold count_step.
    now rewrite explicit_starter_flag, explicit_starter_position.
  - unfold position_breakdown_v3. apply fold_left_map_ext.
    intros bd p. unfold breakdown_step.
    now rewrite explicit_starter_score, explicit_starter_flag,
      explicit_starter_position.
  - unfold by_position. f_equal. apply fold_left_map_ext.
    intros m p. unfold index_step.
    now rewrite explicit_starter_score, explicit_starter_flag,
      explicit_starter_position, explicit_starter_name.
  - unfold team_strength_v3. rewrite team_strength_v3_from. reflexivity.
  - exact Hcount.
  - intros p Hp. unfold position_breakdown_v3.
    rewrite (dict_get_default_In_keys _ (mkSplit 0.0 0.0)).
    + now rewrite breakdown_fold_get.
    + apply breakdown_fold_keys. right. exists p.
      split; [exact Hp|apply position_of_normalized].
  - exact Hindex.
  - intros p Hp Habs.
    assert (Hst : stated_starter p = true) by (unfold stated_starter; now rewrite Habs).
    assert (Hat : In p (filter stated_starter
                          (at_position (normalized_position p) players))).
    { apply filter_In. split; [|exact Hst].
      apply filter_In. split; [exact Hp|apply String.eqb_refl]. }
    split; [unfold explicit_starter; now rewrite Habs|].
    split; [exact Hst|].
    split; [intros [s b]; unfold strength_step; now rewrite Habs|].
    split; [apply filter_In; split; [exact Hp|exact Hst]|].
    split.
    + unfold stated_starters_at.
      destruct (filter stated_starter (at_position (normalized_position p) players));
        [contradiction|simpl List.length; lia].
    + eexists. split; [apply (Hindex p Hp)|].
      apply (Permutation_in _ (Permutation_sym (sorted_reverse_Permutation _ _))).
      rewrite <- Hst.
      apply (in_map (fun q => Entry.mk (name q) (stated_starter q)
                                (calculate_player_score q scoring_type))).
      apply filter_In. split; [exact Hp|apply String.eqb_refl].
Qed.

(** A wide receiver without the key beside one on the bench: the first is
    summed with the starters, counted, and indexed as a starter. *)
Lemma missing_is_starter_defaults_to_true_witness :
  let p := mkPlayer "A" (Some "WR") None (Some 10) Absent in
  let q := mkPlayer "B" (Some "wr") None (Some 5) (Val false) in
  team_strength_v3 [p; q] "PPR"
  = (calculate_player_score p "PPR", calculate_player_score q "PPR")
  /\ dict_get_default "WR" 0%Z (starter_counts (validate_lineup [p; q])) = 1%Z
  /\ dict_get "WR" (position_breakdown_v3 [p; q] "PPR")
     = Some (mkSplit (calculate_player_score p "PPR") (calculate_player_score q "PPR"))
  /\ dict_get "WR" (by_position "PPR" [p; q])
     = Some [ Entry.mk "A" true (calculate_player_score p "PPR");
              Entry.mk "B" false (calculate_player_score q "PPR") ]
  /\ is_starter (explicit_starter p) = Val true.
Proof.
  cbv zeta.
  match goal with
  | |- team_strength_v3 ?l ?st = _ /\ _ =>
      destruct (missing_is_starter_defaults_to_true l st)
        as [_ [_ [_ [_ [Hsum [Hcount [Hsplit [Hindex Habsent]]]]]]]]
  end.
  cbv zeta in Hsum, Hcount, Hsplit, Hindex, Habsent.
  split; [rewrite Hsum; vm_compute; reflexivity|].
  split; [rewrite Hcount; reflexivity|].
  split; [etransitivity;
          [exact (Hsplit _ (or_introl eq_refl))|vm_compute; reflexivity]|].
  split; [etransitivity;
          [exact (Hindex _ (or_introl eq_refl))|vm_compute; reflexivity]|].
  apply (Habsent _ (or_introl eq_refl) eq_refl).
Defined.
